(** * Object dictionary access of CanFestival: objacces.h / objacces.c

    A shallow embedding of the entry access engine
    ([_findODentry], [_checkODentryAccess], [_copyODentry], [getODentry],
    [_setODentry], [RegisterSetODentryCallBack]) and the properties of it
    that the specification states.

    Conventions of the embedding.
    - [UNS8], [UNS16] and [UNS32] values that the code only compares or
      masks (abort codes, data types, access flags, function pointers) are
      [Z]; byte counts, subindexes and addresses are [nat].  The one place
      where a width matters, the [UNS8] loop counters of the two byte
      reversal loops, has its wrap-around written out.
    - The storage of all entries lives in one flat RAM, a [list Z] of
      bytes; [pObject] is an address in it.  The buffer of the caller
      ([pDestData], [pSourceData]) is a separate [list Z].
    - Every access of the engine to the RAM is recorded in a trace, next
      to the calls of the injected functions.
    - [accessDictionaryError] and [MSG_WAR] only print, and only in debug
      builds; their calls are left out. *)

From Stdlib Require Import ZArith Lia List Bool.
From stdpp Require Import base numbers list.

(** ** Constants of headers that are not part of the sources

    [def.h], [objdictdef.h] and the build configuration are not available:
    the abort codes, the access flags, the three data type codes the engine
    compares with, and the compile-time switch [CANOPEN_BIG_ENDIAN] are
    parameters of the development. *)
Class ObjDictDefs : Type := {
  OD_SUCCESSFUL : Z;
  OD_READ_NOT_ALLOWED : Z;
  OD_WRITE_NOT_ALLOWED : Z;
  OD_NO_SUCH_OBJECT : Z;
  OD_NO_SUCH_SUBINDEX : Z;
  OD_LENGTH_DATA_INVALID : Z;
  SDOABT_OUT_OF_MEMORY : Z;
  RW : Z;
  WO : Z;
  RO : Z;
  TO_BE_SAVE : Z;
  boolean : Z;
  visible_string : Z;
  domain : Z;
  CANOPEN_BIG_ENDIAN : bool
}.

(** ** Data model *)

(** [struct td_subindex]. *)
Record subindex : Type := {
  bAccessType : Z;
  bDataType : Z;
  size : nat;
  pObject : nat
}.

(** [struct td_indextable]. *)
Record indextable : Type := {
  pSubindex : list subindex;
  bSubCount : nat;
  index : Z
}.

#[global] Instance subindex_inhabited : Inhabited subindex :=
  populate {| bAccessType := 0; bDataType := 0; size := 0; pObject := 0 |}.

(** What the engine did, in order. *)
Inductive event : Type :=
| EvLoad (a : nat)
| EvStore (a : nat)
| EvRangeTest (dataType : Z) (value : list Z)
| EvCallback (fn : Z) (bSubindex : nat)
| EvStoreODSubIndex (wIndex : Z) (bSubindex : nat).

(** The mutable part of the device: the RAM that holds the entries, the
    callback arrays (a [ODCallback_t *] is the position of an array in
    [callbacks], a [ODCallback_t] is the address of a function, 0 for
    NULL), and the trace. *)
Record machine : Type := {
  ram : list Z;
  callbacks : list (list Z);
  trace : list event
}.

(** The three out-values of [d->scanIndexOD]. *)
Record scan_result : Type := {
  sr_table : indextable;
  sr_errorCode : Z;
  sr_Callback : option nat
}.

(** The part of [CO_Data] the engine uses.  [run_callback fn] is the code
    at function address [fn]; it and [storeODSubIndex] see and may change
    the RAM. *)
Record CO_Data : Type := {
  scanIndexOD : Z -> scan_result;
  valueRangeTest : Z -> list Z -> Z;
  storeODSubIndex : Z -> nat -> list Z -> list Z;
  run_callback : Z -> indextable -> nat -> list Z -> Z * list Z
}.

(** ** A state monad over the machine

    [None] is a call that does not return. *)

Definition M (A : Type) : Type := machine -> option (A * machine).

Definition ret {A : Type} (a : A) : M A := fun m => Some (a, m).

Definition bind {A B : Type} (c : M A) (k : A -> M B) : M B :=
  fun m => match c m with
           | Some (a, m') => k a m'
           | None => None
           end.

Notation "'do' x <- c ; k" := (bind c (fun x => k))
  (at level 10, x name, c at level 100, k at level 200).
Notation "'run' c ; k" := (bind c (fun _ => k))
  (at level 10, c at level 100, k at level 200).

Definition record_event (e : event) : M unit :=
  fun m => Some (tt, {| ram := ram m; callbacks := callbacks m;
                        trace := trace m ++ [e] |}).

(** Read of one byte of the RAM.  Addresses beyond the modelled RAM read
    as a fixed byte, the default 1 of the total lookup. *)
Definition load (a : nat) : M Z :=
  fun m => Some (ram m !!! a,
                 {| ram := ram m; callbacks := callbacks m;
                    trace := trace m ++ [EvLoad a] |}).

(** Write of one byte of the RAM.  Addresses beyond the modelled RAM are
    not mapped: the write is recorded and has no effect. *)
Definition store (a : nat) (v : Z) : M unit :=
  fun m => Some (tt,
                 {| ram := <[a:=v]> (ram m); callbacks := callbacks m;
                    trace := trace m ++ [EvStore a] |}).

(** [Callback && Callback[bSubindex]]: the function registered in slot
    [bSubindex] of the array [Callback], 0 when there is no array. *)
Definition callback_slot (Callback : option nat) (bSubindex : nat) : M Z :=
  fun m => Some (match Callback with
                 | None => 0%Z
                 | Some h => (callbacks m !!! h) !!! bSubindex
                 end, m).

(** [CallbackList[bSubindex] = fn]. *)
Definition set_callback_slot (h bSubindex : nat) (fn : Z) : M unit :=
  fun m => Some (tt,
                 {| ram := ram m;
                    callbacks :=
                      <[h := <[bSubindex := fn]> (callbacks m !!! h)]>
                        (callbacks m);
                    trace := trace m |}).

Section Engine.
Context `{Defs : ObjDictDefs}.

(** ** objacces.h *)

(** [_findODentry]: the entry is returned next to the code. *)
Definition _findODentry (d : CO_Data) (wIndex : Z) (bSubindex : nat)
    : Z * option subindex :=
  let sr := scanIndexOD d wIndex in
  if negb (sr_errorCode sr =? OD_SUCCESSFUL)%Z then (sr_errorCode sr, None)
  else if bSubCount (sr_table sr) <=? bSubindex then (OD_NO_SUCH_SUBINDEX, None)
  else (OD_SUCCESSFUL, Some (pSubindex (sr_table sr) !!! bSubindex)).

(** [_checkODentryAccess]: TRUE when the entry carries the [WO] flag. *)
Definition _checkODentryAccess (ptrTable : subindex) : bool :=
  if negb (Z.land (bAccessType ptrTable) WO =? 0)%Z then true else false.

(** Types that are byte-reversed: above [boolean] and not in the range
    [visible_string .. domain]. *)
Definition endianized_type (dataType : Z) : bool :=
  (boolean <? dataType)%Z &&
  negb ((visible_string <=? dataType)%Z && (dataType <=? domain)%Z).

(** [for ( i = szData ; i > 0 ; i--) pDestData[j++] = pObject[i-1];] *)
Fixpoint reverse_copy (pObj : nat) (i j : nat) (dest : list Z) : M (list Z) :=
  match i with
  | 0 => ret dest
  | S i' => do b <- load (pObj + i') ; reverse_copy pObj i' (S j) (<[j:=b]> dest)
  end.

(** [memcpy(pDestData, ptrTable->pObject, n)], byte [k] onwards. *)
Fixpoint memcpy_from_od (pObj : nat) (n k : nat) (dest : list Z) : M (list Z) :=
  match n with
  | 0 => ret dest
  | S n' => do b <- load (pObj + k) ; memcpy_from_od pObj n' (S k) (<[k:=b]> dest)
  end.

(** [while( *ptr && ptr < ptr_end) *(ptr_dest++) = *(ptr++);]
    [room] is [ptr_end - ptr], [k] is [ptr_dest - pDestData].  The byte at
    [ptr] is read before [ptr] is compared with [ptr_end].  Returns the
    final [ptr]. *)
Fixpoint string_scan (ptr room k : nat) (dest : list Z) : M (nat * list Z) :=
  do c <- load ptr ;
  if (c =? 0)%Z then ret (ptr, dest)
  else match room with
       | 0 => ret (ptr, dest)
       | S room' =>
           do b <- load ptr ;
           string_scan (S ptr) room' (S k) (<[k:=b]> dest)
       end.

(** [_copyODentry]: returns the destination buffer, [*pExpectedSize] and
    the code. *)
Definition _copyODentry (ptrTable : subindex) (bSubindex : nat)
    (pDestData : list Z) (dataType : Z) (pExpectedSize : nat)
    (endianize : bool) : M (list Z * nat * Z) :=
  if pExpectedSize <? size ptrTable then
    ret (pDestData, size ptrTable, SDOABT_OUT_OF_MEMORY)
  else
    let szData := size ptrTable in
    if CANOPEN_BIG_ENDIAN && endianize && endianized_type dataType then
      (* UNS8 i = szData *)
      do dest <- reverse_copy (pObject ptrTable) (szData mod 256) 0 pDestData ;
      ret (dest, szData, OD_SUCCESSFUL)
    else if negb (dataType =? visible_string)%Z then
      do dest <- memcpy_from_od (pObject ptrTable) szData 0 pDestData ;
      ret (dest, szData, OD_SUCCESSFUL)
    else
      let ptr_start := pObject ptrTable in
      let room := if negb (pExpectedSize =? 0) then pExpectedSize else szData in
      do r <- string_scan ptr_start room 0 pDestData ;
      let (ptr, dest) := (r : nat * list Z) in
      let len := ptr - ptr_start in
      run (if len <? szData then store ptr 0 else ret tt) ;
      ret (dest, len, OD_SUCCESSFUL).

(** [getODentry]: returns the destination buffer, [*pExpectedSize],
    [*pDataType] and the code.  What was not assigned is returned as it
    was passed.  [ptrTable] is still NULL after a successful
    [_findODentry] only if [OD_NO_SUCH_SUBINDEX] were [OD_SUCCESSFUL]. *)
Definition getODentry (d : CO_Data) (wIndex : Z) (bSubindex : nat)
    (pDestData : list Z) (pExpectedSize : nat) (pDataType : Z)
    (checkAccess : bool) : M (list Z * nat * Z * Z) :=
  let (err, result) := _findODentry d wIndex bSubindex in
  if negb (err =? OD_SUCCESSFUL)%Z then
    ret (pDestData, pExpectedSize, pDataType, err)
  else
    match result with
    | None => ret (pDestData, pExpectedSize, pDataType, err)
    | Some ptrTable =>
        if checkAccess && negb (_checkODentryAccess ptrTable) then
          ret (pDestData, pExpectedSize, pDataType, OD_READ_NOT_ALLOWED)
        else
          let dataType := bDataType ptrTable in
          do r <- _copyODentry ptrTable bSubindex pDestData dataType
                               pExpectedSize true ;
          let '(dest, sz, err) := (r : list Z * nat * Z) in
          ret (dest, sz, dataType, err)
    end.

(** ** objacces.c *)

(** The in-place reversal of [pSourceData]:
    [for ( i = 0 ; i < (size >> 1) ; i++)] with [UNS8 i], so that [i++]
    wraps at 256.  The loop has no bound of its own: [fuel] is the number
    of times its condition may be evaluated. *)
Fixpoint swap_bytes (fuel : nat) (sz i : nat) (src : list Z) : M (list Z) :=
  match fuel with
  | 0 => fun _ => None
  | S fuel' =>
      if i <? sz / 2 then
        let tmp := src !!! ((sz - 1) - i) in
        let src := <[(sz - 1) - i := src !!! i]> src in
        let src := <[i := tmp]> src in
        swap_bytes fuel' sz ((i + 1) mod 256) src
      else ret src
  end.

(** [memcpy(ptrTable->pSubindex[bSubindex].pObject, pSourceData, n)],
    byte [k] onwards. *)
Fixpoint memcpy_to_od (pObj : nat) (src : list Z) (n k : nat) : M unit :=
  match n with
  | 0 => ret tt
  | S n' => run store (pObj + k) (src !!! k) ; memcpy_to_od pObj src n' (S k)
  end.

(** [(Callback[bSubindex])(d, ptrTable, bSubindex)]. *)
Definition call_callback (d : CO_Data) (fn : Z) (ptrTable : indextable)
    (bSubindex : nat) : M Z :=
  fun m => let (code, ram') := run_callback d fn ptrTable bSubindex (ram m) in
           Some (code, {| ram := ram'; callbacks := callbacks m;
                          trace := trace m ++ [EvCallback fn bSubindex] |}).

(** [( *d->storeODSubIndex)(d, wIndex, bSubindex)]. *)
Definition call_storeODSubIndex (d : CO_Data) (wIndex : Z) (bSubindex : nat)
    : M unit :=
  fun m => Some (tt, {| ram := storeODSubIndex d wIndex bSubindex (ram m);
                        callbacks := callbacks m;
                        trace := trace m ++ [EvStoreODSubIndex wIndex bSubindex] |}).

(** The size test of [_setODentry]. *)
Definition size_accepted (dataType : Z) (szData pExpectedSize : nat) : bool :=
  (pExpectedSize =? 0) || (pExpectedSize =? szData) ||
  ((dataType =? visible_string)%Z && (pExpectedSize <? szData)).

(** [_setODentry]: returns the source buffer, [*pExpectedSize] and the
    code. *)
Definition _setODentry (fuel : nat) (d : CO_Data) (wIndex : Z)
    (bSubindex : nat) (pSourceData : list Z) (pExpectedSize : nat)
    (checkAccess endianize : bool) : M (list Z * nat * Z) :=
  let sr := scanIndexOD d wIndex in
  let ptrTable := sr_table sr in
  let Callback := sr_Callback sr in
  let errorCode := sr_errorCode sr in
  if negb (errorCode =? OD_SUCCESSFUL)%Z then
    ret (pSourceData, pExpectedSize, errorCode)
  else if bSubCount ptrTable <=? bSubindex then
    ret (pSourceData, pExpectedSize, OD_NO_SUCH_SUBINDEX)
  else
    let entry := pSubindex ptrTable !!! bSubindex in
    if checkAccess && (bAccessType entry =? RO)%Z then
      ret (pSourceData, pExpectedSize, OD_WRITE_NOT_ALLOWED)
    else
      let dataType := bDataType entry in
      let szData := size entry in
      if size_accepted dataType szData pExpectedSize then
        do src <- (if CANOPEN_BIG_ENDIAN && endianize && endianized_type dataType
                   then swap_bytes fuel (size entry) 0 pSourceData
                   else ret pSourceData) ;
        run record_event (EvRangeTest dataType src) ;
        let errorCode := valueRangeTest d dataType src in
        if negb (errorCode =? 0)%Z then
          ret (src, pExpectedSize, errorCode)
        else
          run memcpy_to_od (pObject entry) src pExpectedSize 0 ;
          run (if (dataType =? visible_string)%Z && (pExpectedSize <? szData)
               then store (pObject entry + pExpectedSize) 0
               else ret tt) ;
          let pExpectedSize := szData in
          do fn <- callback_slot Callback bSubindex ;
          do errorCode <- (if negb (fn =? 0)%Z
                           then call_callback d fn ptrTable bSubindex
                           else ret OD_SUCCESSFUL) ;
          if negb (errorCode =? OD_SUCCESSFUL)%Z then
            ret (src, pExpectedSize, errorCode)
          else
            run (if negb (Z.land (bAccessType entry) TO_BE_SAVE =? 0)%Z
                 then call_storeODSubIndex d wIndex bSubindex
                 else ret tt) ;
            ret (src, pExpectedSize, OD_SUCCESSFUL)
      else
        ret (pSourceData, szData, OD_LENGTH_DATA_INVALID).

(** [RegisterSetODentryCallBack]. *)
Definition RegisterSetODentryCallBack (d : CO_Data) (wIndex : Z)
    (bSubindex : nat) (Callback : Z) : M Z :=
  let sr := scanIndexOD d wIndex in
  let errorCode := sr_errorCode sr in
  let odentry := sr_table sr in
  run (match sr_Callback sr with
       | Some CallbackList =>
           if (errorCode =? OD_SUCCESSFUL)%Z && (bSubindex <? bSubCount odentry)
           then set_callback_slot CallbackList bSubindex Callback
           else ret tt
       | None => ret tt
       end) ;
  ret errorCode.

(** [_storeODSubIndex], the default persistence notifier: an empty body. *)
Definition _storeODSubIndex (wIndex : Z) (bSubindex : nat) (r : list Z)
    : list Z := r.

End Engine.

(** ** One assignment of the constants

    The abort codes of CiA 301 and the flag and type codes of CanFestival's
    [objdictdef.h]; the byte order of the target is left open. *)
Definition canfestival_defs (big_endian : bool) : ObjDictDefs := {|
  OD_SUCCESSFUL := 0x00000000;
  OD_READ_NOT_ALLOWED := 0x06010001;
  OD_WRITE_NOT_ALLOWED := 0x06010002;
  OD_NO_SUCH_OBJECT := 0x06020000;
  OD_NO_SUCH_SUBINDEX := 0x06090011;
  OD_LENGTH_DATA_INVALID := 0x06070010;
  SDOABT_OUT_OF_MEMORY := 0x05040005;
  RW := 0x00;
  WO := 0x01;
  RO := 0x02;
  TO_BE_SAVE := 0x04;
  boolean := 0x01;
  visible_string := 0x09;
  domain := 0x0F;
  CANOPEN_BIG_ENDIAN := big_endian
|}.

(** A little-endian target such as the AVR, and a big-endian one. *)
Definition little_endian_defs : ObjDictDefs := canfestival_defs false.
Definition big_endian_defs : ObjDictDefs := canfestival_defs true.

(** Data type codes of [objdictdef.h] used in the examples. *)
Definition uint8 : Z := 0x05.
Definition uint16 : Z := 0x06.

(** A device with the single index 0x2000.  Its validator accepts every
    value, its persistence notifier is the default one, and the function at
    address 0x100 is a callback that fails with the general abort code
    0x08000000; every other function succeeds. *)
Definition example_device (entries : list subindex) (Callback : option nat)
    : CO_Data := {|
  scanIndexOD := fun wIndex =>
    if (wIndex =? 0x2000)%Z then
      {| sr_table := {| pSubindex := entries; bSubCount := length entries;
                        index := 0x2000 |};
         sr_errorCode := 0x00000000;
         sr_Callback := Callback |}
    else
      {| sr_table := {| pSubindex := []; bSubCount := 0; index := 0 |};
         sr_errorCode := 0x06020000;
         sr_Callback := None |};
  valueRangeTest := fun _ _ => 0%Z;
  storeODSubIndex := _storeODSubIndex;
  run_callback := fun fn _ _ r =>
    (if (fn =? 0x100)%Z then 0x08000000%Z else 0%Z, r)
|}.

Definition example_machine (r : list Z) (cbs : list (list Z)) : machine :=
  {| ram := r; callbacks := cbs; trace := [] |}.

(** The same device with a validator that refuses, with the abort code
    0x06090031, every value whose first byte is above 100. *)
Definition strict_device (entries : list subindex) : CO_Data := {|
  scanIndexOD := scanIndexOD (example_device entries None);
  valueRangeTest := fun (_ : Z) (value : list Z) =>
    if (100 <? value !!! 0%nat)%Z then 0x06090031%Z else 0%Z;
  storeODSubIndex := _storeODSubIndex;
  run_callback := fun _ _ _ r => (0%Z, r)
|}.

(** An entry of 512 bytes of a manufacturer specific type, 0x40. *)
Definition wide_entry : subindex :=
  {| bAccessType := 0; bDataType := 0x40; size := 512; pObject := 0 |}.

(** Entries used in the examples, all stored at address 0. *)
Section ExampleData.
#[local] Existing Instance little_endian_defs.

(** A write-only [UNS8]. *)
Definition wo_entry : subindex :=
  {| bAccessType := WO; bDataType := uint8; size := 1; pObject := 0 |}.

(** A read-write [UNS8]. *)
Definition rw_entry : subindex :=
  {| bAccessType := RW; bDataType := uint8; size := 1; pObject := 0 |}.

(** A read-only [UNS8]. *)
Definition ro_entry : subindex :=
  {| bAccessType := RO; bDataType := uint8; size := 1; pObject := 0 |}.

(** A read-only [UNS8] that is to be saved. *)
Definition ro_saved_entry : subindex :=
  {| bAccessType := Z.lor RO TO_BE_SAVE; bDataType := uint8; size := 1;
     pObject := 0 |}.

(** A read-write [UNS16], like the heartbeat time 0x1017. *)
Definition u16_entry : subindex :=
  {| bAccessType := RW; bDataType := uint16; size := 2; pObject := 0 |}.

(** A read-write [UNS16] that is to be saved. *)
Definition u16_saved_entry : subindex :=
  {| bAccessType := Z.lor RW TO_BE_SAVE; bDataType := uint16; size := 2;
     pObject := 0 |}.

(** A read-write string of [n] bytes. *)
Definition string_entry (n : nat) : subindex :=
  {| bAccessType := RW; bDataType := visible_string; size := n;
     pObject := 0 |}.

End ExampleData.

(** ** Notions used in the statements *)

(** The bytes of the storage window [[pObject, pObject + size)] of an
    entry. *)
Definition storage (e : subindex) (r : list Z) : list Z :=
  take (size e) (drop (pObject e) r).

(** An address lies in the storage window of an entry. *)
Definition in_window (e : subindex) (a : nat) : Prop :=
  pObject e <= a < pObject e + size e.

(** How often the trace records the call of a callback. *)
Fixpoint callback_calls (t : list event) : nat :=
  match t with
  | [] => 0
  | EvCallback _ _ :: t' => S (callback_calls t')
  | _ :: t' => callback_calls t'
  end.

(** The RAM after the stores of [memcpy_to_od]. *)
Fixpoint write_bytes (r : list Z) (pObj : nat) (src : list Z) (n k : nat)
    : list Z :=
  match n with
  | 0 => r
  | S n' => write_bytes (<[pObj + k := src !!! k]> r) pObj src n' (S k)
  end.

(** The destination after the loop of [reverse_copy]. *)
Fixpoint reversed_into (r : list Z) (pObj i j : nat) (dest : list Z)
    : list Z :=
  match i with
  | 0 => dest
  | S i' => reversed_into r pObj i' (S j) (<[j := r !!! (pObj + i')]> dest)
  end.

(** The destination after [memcpy_from_od]. *)
Fixpoint copied_into (r : list Z) (pObj n k : nat) (dest : list Z) : list Z :=
  match n with
  | 0 => dest
  | S n' => copied_into r pObj n' (S k) (<[k := r !!! (pObj + k)]> dest)
  end.

(** The source buffer after [n] more rounds of the loop of [swap_bytes],
    without the wrap-around of the counter. *)
Fixpoint swapped (n sz i : nat) (src : list Z) : list Z :=
  match n with
  | 0 => src
  | S n' =>
      swapped n' sz (S i)
        (<[i := src !!! ((sz - 1) - i)]> (<[(sz - 1) - i := src !!! i]> src))
  end.

Section Notions.
Context `{Defs : ObjDictDefs}.

(** The source buffer after the reversal step of [_setODentry], as the
    validator and the copy see it. *)
Definition native_source (e : subindex) (endianize : bool) (src : list Z)
    : list Z :=
  if CANOPEN_BIG_ENDIAN && endianize && endianized_type (bDataType e)
  then swapped (size e / 2) (size e) 0 src else src.

(** The reversal step of [_setODentry] comes to an end: there is nothing to
    reverse, or half the size fits the [UNS8] counter and the fuel. *)
Definition reversal_ends (fuel : nat) (e : subindex) (endianize : bool)
    : Prop :=
  CANOPEN_BIG_ENDIAN && endianize && endianized_type (bDataType e) = false \/
  (size e < 512 /\ size e / 2 < fuel).

End Notions.

(** The number of bytes the loop of [string_scan] copies: the bytes from
    [ptr] on that are not zero, at most [room] of them. *)
Fixpoint scan_len (r : list Z) (ptr room : nat) : nat :=
  match room with
  | 0 => 0
  | S room' =>
      if (r !!! ptr =? 0)%Z then 0 else S (scan_len r (S ptr) room')
  end.

(** An event is an access to the RAM at an address in [[lo, hi]]. *)
Definition access_within (lo hi : nat) (ev : event) : Prop :=
  match ev with
  | EvLoad a | EvStore a => lo <= a <= hi
  | _ => False
  end.

(** An event is no load, and a store only inside the storage window of the
    entry. *)
Definition stores_in_window (e : subindex) (ev : event) : Prop :=
  match ev with
  | EvLoad _ => False
  | EvStore a => in_window e a
  | _ => True
  end.

(** ** The write macros of objacces.h *)

Section Macros.
Context `{Defs : ObjDictDefs}.

(** [setODentry]: [_setODentry] with [endianize] 1. *)
Definition setODentry (fuel : nat) (d : CO_Data) (wIndex : Z)
    (bSubindex : nat) (pSourceData : list Z) (pExpectedSize : nat)
    (checkAccess : bool) : M (list Z * nat * Z) :=
  _setODentry fuel d wIndex bSubindex pSourceData pExpectedSize checkAccess
    true.

(** [writeLocalDict]: [_setODentry] with [endianize] 0. *)
Definition writeLocalDict (fuel : nat) (d : CO_Data) (wIndex : Z)
    (bSubindex : nat) (pSourceData : list Z) (pExpectedSize : nat)
    (checkAccess : bool) : M (list Z * nat * Z) :=
  _setODentry fuel d wIndex bSubindex pSourceData pExpectedSize checkAccess
    false.

End Macros.

(** ** The AVR timer driver

    Timer 1 of the AVR is a 16 bit timer: [TimerAlarm] is the compare
    register [OCR1B] and [TimerCounter] the counter [TCNT1], both 16 bits
    wide, and [int] and [unsigned int] have 16 bits.  [TIMEVAL_MAX] and the
    bit numbers [CS10], [CS11] and [OCIE1B] come from headers that are not
    part of the sources and are parameters. *)

Record timer_state : Type := {
  OCR1B : Z;
  TCNT1 : Z;
  TCCR1B : Z;
  TIMSK1 : Z;
  last_time_set : Z
}.

(** The cast [(int)value]: the low 16 bits, read as a signed number. *)
Definition to_int (value : Z) : Z := (value + 2 ^ 15) mod 2 ^ 16 - 2 ^ 15.

(** [initTimer]. *)
Definition initTimer (CS10 CS11 OCIE1B : Z) (s : timer_state) : timer_state :=
  {| OCR1B := 0;
     TCNT1 := TCNT1 s;
     TCCR1B := Z.lor (Z.shiftl 1 CS11) (Z.shiftl 1 CS10);
     TIMSK1 := Z.shiftl 1 OCIE1B;
     last_time_set := last_time_set s |}.

(** [setTimer]: [TimerAlarm += (int)value], in 16 bits. *)
Definition setTimer (value : Z) (s : timer_state) : timer_state :=
  {| OCR1B := (OCR1B s + to_int value) mod 2 ^ 16;
     TCNT1 := TCNT1 s;
     TCCR1B := TCCR1B s;
     TIMSK1 := TIMSK1 s;
     last_time_set := last_time_set s |}.

(** [getElapsedTime]. *)
Definition getElapsedTime (TIMEVAL_MAX : Z) (s : timer_state) : Z :=
  let timer := TCNT1 s in
  if (last_time_set s <? timer)%Z then (timer - last_time_set s)%Z
  else if (timer <? last_time_set s)%Z then (last_time_set s - timer)%Z
  else TIMEVAL_MAX.

(** The interrupt service routine of compare match B: it latches the
    counter and calls [TimeDispatch], the time handler of the stack. *)
Definition TIMER1_COMPB_interrupt (TimeDispatch : timer_state -> timer_state)
    (s : timer_state) : timer_state :=
  TimeDispatch {| OCR1B := OCR1B s; TCNT1 := TCNT1 s; TCCR1B := TCCR1B s;
                  TIMSK1 := TIMSK1 s; last_time_set := TCNT1 s |}.

(** The counter [k] ticks later. *)
Definition ticks (k : Z) (s : timer_state) : timer_state :=
  {| OCR1B := OCR1B s; TCNT1 := (TCNT1 s + k) mod 2 ^ 16;
     TCCR1B := TCCR1B s; TIMSK1 := TIMSK1 s;
     last_time_set := last_time_set s |}.

(** Unfolds the operations of the monad. *)
Ltac unfold_monad :=
  unfold bind, ret, record_event, load, store, callback_slot,
    set_callback_slot, call_callback, call_storeODSubIndex.

(** ** The loops *)

Section Loops.

Lemma memcpy_to_od_spec pObj src n k m :
  memcpy_to_od pObj src n k m =
  Some (tt, {| ram := write_bytes (ram m) pObj src n k;
               callbacks := callbacks m;
               trace := trace m ++ map EvStore (seq (pObj + k) n) |}).
Proof.
  revert k m. induction n as [|n IH]; intros k m; simpl.
  - unfold ret. rewrite app_nil_r. by destruct m.
  - unfold bind, store. rewrite IH. simpl.
    rewrite <- app_assoc, Nat.add_succ_r. reflexivity.
Qed.

Lemma reverse_copy_spec pObj i j dest m :
  reverse_copy pObj i j dest m =
  Some (reversed_into (ram m) pObj i j dest,
        {| ram := ram m; callbacks := callbacks m;
           trace := trace m ++ map EvLoad (rev (seq pObj i)) |}).
Proof.
  revert j dest m. induction i as [|i IH]; intros j dest m.
  - simpl. unfold ret. rewrite app_nil_r. by destruct m.
  - rewrite seq_S, rev_unit.
    simpl. unfold bind, load. rewrite IH. simpl.
    rewrite <- app_assoc. reflexivity.
Qed.

Lemma memcpy_from_od_spec pObj n k dest m :
  memcpy_from_od pObj n k dest m =
  Some (copied_into (ram m) pObj n k dest,
        {| ram := ram m; callbacks := callbacks m;
           trace := trace m ++ map EvLoad (seq (pObj + k) n) |}).
Proof.
  revert k dest m. induction n as [|n IH]; intros k dest m; simpl.
  - unfold ret. rewrite app_nil_r. by destruct m.
  - unfold bind, load. rewrite IH. simpl.
    rewrite <- app_assoc, Nat.add_succ_r. reflexivity.
Qed.

(** The scan of a string returns, and leaves RAM and callbacks alone. *)
Lemma string_scan_returns ptr room k dest m :
  exists ptr' dest' t,
    string_scan ptr room k dest m =
    Some ((ptr', dest'),
          {| ram := ram m; callbacks := callbacks m;
             trace := trace m ++ t |}).
Proof.
  revert ptr k dest m. induction room as [|room IH]; intros ptr k dest m.
  - simpl. unfold bind, load, ret.
    destruct (ram m !!! ptr =? 0)%Z; eauto.
  - simpl. unfold bind, load, ret. simpl.
    destruct (ram m !!! ptr =? 0)%Z; [eauto|]. simpl.
    edestruct (IH (S ptr) (S k) (<[k:=ram m !!! ptr]> dest)
      {| ram := ram m; callbacks := callbacks m;
         trace := (trace m ++ [EvLoad ptr]) ++ [EvLoad ptr] |})
      as (ptr' & dest' & t & ->).
    simpl. rewrite <- !app_assoc. eauto.
Qed.

(** As long as half the size fits the [UNS8] counter, the reversal loop
    ends after [sz / 2] rounds. *)
Lemma swap_bytes_spec fuel sz i src m :
  i <= sz / 2 -> sz / 2 <= 255 -> sz / 2 - i < fuel ->
  swap_bytes fuel sz i src m = Some (swapped (sz / 2 - i) sz i src, m).
Proof.
  revert i src. induction fuel as [|fuel IH]; intros i src Hi Hsz Hf; [lia|].
  cbn [swap_bytes]. cbv zeta. destruct (i <? sz / 2) eqn:E.
  - apply Nat.ltb_lt in E.
    replace ((i + 1) mod 256) with (S i)
      by (rewrite Nat.mod_small; lia).
    rewrite IH by lia.
    replace (sz / 2 - i) with (S (sz / 2 - S i)) by lia. reflexivity.
  - apply Nat.ltb_ge in E.
    replace (sz / 2 - i) with 0 by lia. reflexivity.
Qed.

(** When half the size does not fit the counter, the loop has no end. *)
Lemma swap_bytes_diverges fuel sz i src m :
  255 < sz / 2 -> i < 256 -> swap_bytes fuel sz i src m = None.
Proof.
  revert i src. induction fuel as [|fuel IH]; intros i src Hsz Hi; [done|].
  cbn [swap_bytes]. cbv zeta. destruct (i <? sz / 2) eqn:E.
  - apply IH; [done|]. apply Nat.mod_upper_bound. lia.
  - apply Nat.ltb_ge in E. lia.
Qed.

Lemma callback_calls_app t1 t2 :
  callback_calls (t1 ++ t2) = callback_calls t1 + callback_calls t2.
Proof.
  induction t1 as [|ev t1 IH]; simpl; [done|].
  destruct ev; simpl; rewrite IH; reflexivity.
Qed.

Lemma callback_calls_stores l : callback_calls (map EvStore l) = 0.
Proof. induction l; simpl; auto. Qed.

End Loops.

(** ** What the loops leave in the buffers *)

Section Buffers.
Implicit Types r src dest : list Z.

Lemma write_bytes_length r pObj src n k :
  length (write_bytes r pObj src n k) = length r.
Proof.
  revert r k. induction n as [|n IH]; intros r k; simpl; [done|].
  by rewrite IH, length_insert.
Qed.

Lemma write_bytes_lookup r pObj src n k a :
  write_bytes r pObj src n k !! a =
  if decide (pObj + k <= a < pObj + k + n /\ a < length r)
  then Some (src !!! (a - pObj)) else r !! a.
Proof.
  revert r k. induction n as [|n IH]; intros r k; simpl.
  - case_decide; [lia|done].
  - rewrite IH, length_insert, list_lookup_insert.
    repeat case_decide; try done; try lia.
    f_equal. f_equal. lia.
Qed.

Lemma write_bytes_zero r pObj src k : write_bytes r pObj src 0 k = r.
Proof. reflexivity. Qed.


Lemma reversed_into_lookup r pObj i j dest idx :
  j + i <= length dest ->
  reversed_into r pObj i j dest !! idx =
  if decide (j <= idx < j + i)
  then Some (r !!! (pObj + (j + i - 1 - idx))) else dest !! idx.
Proof.
  revert j dest. induction i as [|i IH]; intros j dest Hlen; simpl.
  - case_decide; [lia|done].
  - rewrite IH by (rewrite length_insert; lia).
    rewrite list_lookup_insert.
    repeat case_decide; try done; try lia.
    + f_equal. f_equal. lia.
    + f_equal. f_equal. lia.
Qed.


Lemma copied_into_lookup r pObj n k dest idx :
  k + n <= length dest ->
  copied_into r pObj n k dest !! idx =
  if decide (k <= idx < k + n) then Some (r !!! (pObj + idx)) else dest !! idx.
Proof.
  revert k dest. induction n as [|n IH]; intros k dest Hlen; simpl.
  - case_decide; [lia|done].
  - rewrite IH by (rewrite length_insert; lia).
    rewrite list_lookup_insert.
    repeat case_decide; try done; try lia.
    f_equal. f_equal. lia.
Qed.

Lemma swapped_length n sz i src : length (swapped n sz i src) = length src.
Proof.
  revert i src. induction n as [|n IH]; intros i src; simpl; [done|].
  by rewrite IH, !length_insert.
Qed.

(** After [n] rounds from [i], the bytes at [i .. i+n) and their mirror
    images have changed places. *)
Lemma swapped_lookup n sz i src idx :
  i + n <= sz / 2 -> sz <= length src ->
  swapped n sz i src !! idx =
  if decide (i <= idx < i + n \/ sz - (i + n) <= idx < sz - i)
  then src !! (sz - 1 - idx) else src !! idx.
Proof.
  revert i src. induction n as [|n IH]; intros i src Hn Hlen; simpl.
  - case_decide; [lia|done].
  - assert (sz / 2 * 2 <= sz) by (pose proof (Nat.div_mod_eq sz 2); lia).
    rewrite IH by (rewrite ?length_insert; lia).
    rewrite !list_lookup_insert, !length_insert.
    repeat case_decide; try done; try lia;
      rewrite <- list_lookup_lookup_total_lt by lia; f_equal; lia.
Qed.

(** The whole loop reverses the first [sz] bytes. *)
Lemma swapped_reverse sz src :
  sz <= length src ->
  swapped (sz / 2) sz 0 src = reverse (take sz src) ++ drop sz src.
Proof.
  intros Hlen. apply list_eq. intros idx.
  assert (sz / 2 * 2 <= sz) by (pose proof (Nat.div_mod_eq sz 2); lia).
  assert (sz < sz / 2 * 2 + 2) by (pose proof (Nat.div_mod_eq sz 2);
    pose proof (Nat.mod_upper_bound sz 2); lia).
  rewrite swapped_lookup by lia.
  destruct (decide (idx < sz)) as [Hidx|Hidx].
  - rewrite lookup_app_l by (rewrite length_reverse, length_take; lia).
    rewrite reverse_lookup by (rewrite length_take; lia).
    rewrite length_take, lookup_take_lt by lia.
    replace (sz `min` length src - S idx) with (sz - 1 - idx) by lia.
    case_decide; [done|]. f_equal. lia.
  - rewrite lookup_app_r by (rewrite length_reverse, length_take; lia).
    rewrite length_reverse, length_take, lookup_drop.
    case_decide; [lia|]. f_equal. lia.
Qed.

End Buffers.

(** ** Properties of the engine, for every assignment of the constants *)

Section Properties.
Context `{Defs : ObjDictDefs}.
Implicit Types (d : CO_Data) (m : machine) (e : subindex).

Lemma _findODentry_found d wIndex bSubindex :
  sr_errorCode (scanIndexOD d wIndex) = OD_SUCCESSFUL ->
  bSubindex < bSubCount (sr_table (scanIndexOD d wIndex)) ->
  _findODentry d wIndex bSubindex =
  (OD_SUCCESSFUL,
   Some (pSubindex (sr_table (scanIndexOD d wIndex)) !!! bSubindex)).
Proof.
  intros Hcode Hsub. unfold _findODentry.
  rewrite Hcode, Z.eqb_refl. simpl.
  destruct (Nat.leb_spec (bSubCount (sr_table (scanIndexOD d wIndex)))
              bSubindex); [lia|done].
Qed.



(** C10.  Registering a callback for a subindex at or beyond the subindex
    count of a present index that has a callback array returns the code of
    the resolver, [OD_SUCCESSFUL], which is not [OD_NO_SUCH_SUBINDEX], and
    leaves the machine, so every callback slot, as it was. *)
Theorem RegisterSetODentryCallBack_beyond_count d wIndex bSubindex Callback
    CallbackList m :
  let sr := scanIndexOD d wIndex in
  OD_SUCCESSFUL <> OD_NO_SUCH_SUBINDEX ->
  sr_errorCode sr = OD_SUCCESSFUL ->
  sr_Callback sr = Some CallbackList ->
  bSubCount (sr_table sr) <= bSubindex ->
  exists code,
    RegisterSetODentryCallBack d wIndex bSubindex Callback m = Some (code, m) /\
    code = OD_SUCCESSFUL /\ code <> OD_NO_SUCH_SUBINDEX.
Proof.
  intros sr Hne Hcode Hcb Hsub. exists OD_SUCCESSFUL.
  unfold RegisterSetODentryCallBack. fold sr. rewrite Hcb, Hcode, Z.eqb_refl.
  destruct (Nat.ltb_spec bSubindex (bSubCount (sr_table sr))); [lia|].
  simpl. unfold_monad. auto.
Qed.

Lemma size_accepted_iff dataType szData given :
  size_accepted dataType szData given = true <->
  given = 0 \/ given = szData \/ (dataType = visible_string /\ given < szData).
Proof.
  unfold size_accepted.
  rewrite !orb_true_iff, andb_true_iff, !Nat.eqb_eq, Z.eqb_eq, Nat.ltb_lt.
  tauto.
Qed.

(** The reversal step delivers [native_source]. *)
Lemma native_source_spec fuel e endianize src m :
  reversal_ends fuel e endianize ->
  (if CANOPEN_BIG_ENDIAN && endianize && endianized_type (bDataType e)
   then swap_bytes fuel (size e) 0 src else ret src) m =
  Some (native_source e endianize src, m).
Proof.
  unfold reversal_ends, native_source.
  destruct (CANOPEN_BIG_ENDIAN && endianize && endianized_type (bDataType e)).
  - intros [|[Hsz Hfuel]]; [done|].
    assert (size e / 2 <= 255).
    { pose proof (Nat.div_mod_eq (size e) 2). lia. }
    rewrite swap_bytes_spec by lia. by rewrite Nat.sub_0_r.
  - reflexivity.
Qed.

Lemma native_source_reverse e endianize src :
  size e <= length src ->
  native_source e endianize src =
  (if CANOPEN_BIG_ENDIAN && endianize && endianized_type (bDataType e)
   then reverse (take (size e) src) ++ drop (size e) src else src).
Proof.
  intros Hlen. unfold native_source.
  destruct (_ && _ && _); [by apply swapped_reverse|done].
Qed.

(** C7.  The size test of a write that got past resolution and the access
    check.  When the given size is 0, the declared size, or smaller than
    the declared size of a [visible_string], the write goes on to the
    validator; for any other size it returns [OD_LENGTH_DATA_INVALID] with
    the declared size in [*pExpectedSize], and the machine and the source
    buffer are as before. *)
Theorem _setODentry_size_rule fuel d wIndex bSubindex pSourceData given
    checkAccess endianize m :
  let sr := scanIndexOD d wIndex in
  let e := pSubindex (sr_table sr) !!! bSubindex in
  let accepted :=
    given = 0 \/ given = size e \/
    (bDataType e = visible_string /\ given < size e) in
  sr_errorCode sr = OD_SUCCESSFUL ->
  bSubindex < bSubCount (sr_table sr) ->
  checkAccess && (bAccessType e =? RO)%Z = false ->
  (accepted -> reversal_ends fuel e endianize ->
   exists n code m' t,
     _setODentry fuel d wIndex bSubindex pSourceData given checkAccess
       endianize m =
     Some ((native_source e endianize pSourceData, n, code), m') /\
     trace m' =
     trace m ++
     EvRangeTest (bDataType e) (native_source e endianize pSourceData) :: t) /\
  (~ accepted ->
   _setODentry fuel d wIndex bSubindex pSourceData given checkAccess
     endianize m =
   Some ((pSourceData, size e, OD_LENGTH_DATA_INVALID), m)).
Proof.
  intros sr e accepted Hcode Hsub Hacc.
  unfold _setODentry. fold sr. rewrite Hcode, Z.eqb_refl. simpl.
  destruct (Nat.leb_spec (bSubCount (sr_table sr)) bSubindex); [lia|].
  fold e. rewrite Hacc. split.
  - intros Hok Hends.
    apply size_accepted_iff in Hok. rewrite Hok.
    unfold bind at 1.
    rewrite (native_source_spec fuel e endianize pSourceData m Hends).
    set (src' := native_source e endianize pSourceData).
    unfold bind at 1. unfold record_event at 1.
    destruct (negb (valueRangeTest d (bDataType e) src' =? 0)%Z).
    { unfold ret. do 4 eexists. split; [reflexivity|]. reflexivity. }
    unfold bind at 1. rewrite memcpy_to_od_spec.
    unfold_monad. simpl.
    repeat match goal with
    | |- context [if ?c then _ else _] => destruct c; simpl
    | |- context [let (_, _) := ?p in _] => destruct p; simpl
    end;
    do 4 eexists; (split; [reflexivity|]); simpl;
    rewrite <- ?app_assoc; simpl; reflexivity.
  - intros Hno.
    destruct (size_accepted (bDataType e) (size e) given) eqn:E; [|done].
    apply size_accepted_iff in E. contradiction.
Qed.

(** C8.  A write that got past the checks and the validator, to a subindex
    with a registered callback [fn].  The trace grows by the validator
    call, the stores of the copy, one call of [fn], and then the
    persistence notifier, if the callback succeeded and the entry has the
    [TO_BE_SAVE] flag: the callback is called once, after the copy and
    before the notifier.  The RAM handed to the callback holds the new
    bytes.  The code of the write is the code of the callback, and after a
    code other than [OD_SUCCESSFUL] the RAM is the one the callback left:
    nothing is rolled back. *)
Theorem _setODentry_callback fuel d wIndex bSubindex pSourceData given
    checkAccess endianize m CallbackList :
  let sr := scanIndexOD d wIndex in
  let e := pSubindex (sr_table sr) !!! bSubindex in
  let fn := (callbacks m !!! CallbackList) !!! bSubindex in
  let src' := native_source e endianize pSourceData in
  sr_errorCode sr = OD_SUCCESSFUL ->
  bSubindex < bSubCount (sr_table sr) ->
  checkAccess && (bAccessType e =? RO)%Z = false ->
  size_accepted (bDataType e) (size e) given = true ->
  reversal_ends fuel e endianize ->
  valueRangeTest d (bDataType e) src' = 0%Z ->
  sr_Callback sr = Some CallbackList ->
  fn <> 0%Z ->
  pObject e + size e <= length (ram m) ->
  exists ram1 m',
    let code := (run_callback d fn (sr_table sr) bSubindex ram1).1 in
    let ram2 := (run_callback d fn (sr_table sr) bSubindex ram1).2 in
    let notified :=
      (code =? OD_SUCCESSFUL)%Z &&
      negb (Z.land (bAccessType e) TO_BE_SAVE =? 0)%Z in
    _setODentry fuel d wIndex bSubindex pSourceData given checkAccess
      endianize m = Some ((src', size e, code), m') /\
    trace m' =
      trace m ++ [EvRangeTest (bDataType e) src'] ++
      map EvStore
        (seq (pObject e) given ++
         (if (bDataType e =? visible_string)%Z && (given <? size e)
          then [pObject e + given] else [])) ++
      [EvCallback fn bSubindex] ++
      (if notified then [EvStoreODSubIndex wIndex bSubindex] else []) /\
    callback_calls (trace m') = callback_calls (trace m) + 1 /\
    (forall k, k < given -> ram1 !! (pObject e + k) = Some (src' !!! k)) /\
    ram m' =
      (if notified then storeODSubIndex d wIndex bSubindex ram2 else ram2).
Proof.
  intros sr e fn src' Hcode Hsub Hacc Hok Hends Hval Hcb Hfn Hwin.
  assert (Hgiven : given <= size e).
  { apply size_accepted_iff in Hok. lia. }
  set (stored := write_bytes (ram m) (pObject e) src' given 0).
  set (ram1 := if (bDataType e =? visible_string)%Z && (given <? size e)
               then <[pObject e + given := 0%Z]> stored else stored).
  assert (Hram1 : forall k, k < given ->
            ram1 !! (pObject e + k) = Some (src' !!! k)).
  { intros k Hk.
    assert (stored !! (pObject e + k) = Some (src' !!! k)) as Hst.
    { unfold stored. rewrite write_bytes_lookup.
      case_decide; [|lia]. f_equal. f_equal. lia. }
    unfold ram1.
    destruct ((bDataType e =? visible_string)%Z && (given <? size e));
      [|done].
    rewrite list_lookup_insert_ne by lia. done. }
  exists ram1.
  unfold _setODentry. fold sr. rewrite Hcode, Z.eqb_refl. simpl.
  destruct (Nat.leb_spec (bSubCount (sr_table sr)) bSubindex); [lia|].
  fold e. rewrite Hacc, Hok, Hcb.
  unfold bind at 1.
  rewrite (native_source_spec fuel e endianize pSourceData m Hends).
  fold src'.
  unfold bind at 1. unfold record_event at 1.
  rewrite Hval. simpl.
  unfold bind at 1. rewrite memcpy_to_od_spec. fold stored.
  apply Z.eqb_neq in Hfn. subst fn ram1.
  unfold_monad.
  destruct ((bDataType e =? visible_string)%Z && (given <? size e));
    cbn [ram callbacks trace]; rewrite Hfn; cbn [negb ram callbacks trace];
    (destruct (run_callback d _ (sr_table sr) bSubindex _)
       as [code ram2] eqn:Hrun; cbn [fst snd];
     destruct (code =? OD_SUCCESSFUL)%Z eqn:Hc; cbn [negb andb];
     [ apply Z.eqb_eq in Hc; subst code;
       destruct (negb (Z.land (bAccessType e) TO_BE_SAVE =? 0)%Z)
     | ];
     eexists; (split; [reflexivity|]); cbn [ram callbacks trace];
     rewrite ?map_app, ?callback_calls_app, ?callback_calls_stores;
     cbn [map callback_calls app]; rewrite <- ?app_assoc; cbn [app];
     rewrite ?Nat.add_0_r; repeat split; auto; lia).
Qed.

(** The storage window read byte by byte. *)
Lemma storage_lookup_total e (r : list Z) i :
  i < size e -> r !!! (pObject e + i) = storage e r !!! i.
Proof.
  intros Hi. unfold storage.
  by rewrite lookup_total_take_lt, lookup_total_drop.
Qed.

(** After the copy of [size e] bytes the window holds the source. *)
Lemma storage_write_bytes e (r src : list Z) :
  pObject e + size e <= length r -> size e <= length src ->
  storage e (write_bytes r (pObject e) src (size e) 0) = take (size e) src.
Proof.
  intros Hr Hsrc. unfold storage. apply list_eq. intros i.
  rewrite !lookup_take, lookup_drop, write_bytes_lookup.
  repeat case_decide; try done; try lia.
  rewrite (list_lookup_lookup_total_lt src i) by lia.
  f_equal. f_equal. lia.
Qed.

(** What a write of the declared size that returned [OD_SUCCESSFUL] has
    stored, when the callback and the persistence notifier keep their
    hands off the entry. *)
Lemma _setODentry_stored fuel d wIndex bSubindex pSourceData checkAccess
    endianize m src' n m1 :
  let sr := scanIndexOD d wIndex in
  let e := pSubindex (sr_table sr) !!! bSubindex in
  OD_SUCCESSFUL = 0%Z ->
  OD_WRITE_NOT_ALLOWED <> OD_SUCCESSFUL ->
  sr_errorCode sr = OD_SUCCESSFUL ->
  bSubindex < bSubCount (sr_table sr) ->
  size e < 512 -> size e / 2 < fuel ->
  size e <= length pSourceData ->
  pObject e + size e <= length (ram m) ->
  (forall fn t s r, storage e (run_callback d fn t s r).2 = storage e r) ->
  (forall i s r, storage e (storeODSubIndex d i s r) = storage e r) ->
  _setODentry fuel d wIndex bSubindex pSourceData (size e) checkAccess
    endianize m = Some ((src', n, OD_SUCCESSFUL), m1) ->
  src' = (if CANOPEN_BIG_ENDIAN && endianize && endianized_type (bDataType e)
          then reverse (take (size e) pSourceData) ++
               drop (size e) pSourceData
          else pSourceData) /\
  storage e (ram m1) = take (size e) src'.
Proof.
  intros sr e H0 Hwna Hcode Hsub Hsz Hfuel Hsrc Hwin Hcb Hst.
  unfold _setODentry. fold sr. rewrite Hcode, Z.eqb_refl. simpl.
  destruct (Nat.leb_spec (bSubCount (sr_table sr)) bSubindex); [lia|].
  fold e.
  destruct (checkAccess && (bAccessType e =? RO)%Z).
  { unfold ret. intros [= _ _ Hc _]. done. }
  assert (Hok : size_accepted (bDataType e) (size e) (size e) = true).
  { apply size_accepted_iff. auto. }
  rewrite Hok.
  assert (Hends : reversal_ends fuel e endianize) by (right; done).
  pose proof (native_source_reverse e endianize pSourceData Hsrc) as Heq.
  set (src2 := native_source e endianize pSourceData) in Heq.
  unfold bind at 1.
  rewrite (native_source_spec fuel e endianize pSourceData m Hends).
  fold src2.
  unfold bind at 1. unfold record_event at 1.
  destruct (Z.eqb_spec (valueRangeTest d (bDataType e) src2) 0) as [Hv|Hv];
    cbn [negb].
  2:{ unfold ret. intros [= _ _ Hc _]. congruence. }
  unfold bind at 1. rewrite memcpy_to_od_spec.
  rewrite Nat.ltb_irrefl, andb_false_r.
  assert (Hlen2 : size e <= length src2).
  { rewrite Heq. destruct (_ && _ && _); [|done].
    rewrite length_app, length_reverse, length_take, length_drop. lia. }
  pose proof (storage_write_bytes e (ram m) src2 Hwin Hlen2) as Hstored.
  unfold_monad. cbn [ram callbacks trace].
  set (fn := match sr_Callback sr with
             | Some h => (callbacks m !!! h) !!! bSubindex
             | None => 0%Z
             end).
  pose proof (Hcb fn (sr_table sr) bSubindex
    (write_bytes (ram m) (pObject e) src2 (size e) 0)) as Hkeep.
  destruct (negb (fn =? 0)%Z); cbn [ram callbacks trace].
  - destruct (run_callback d fn (sr_table sr) bSubindex _)
      as [code ram2] eqn:Hrun.
    cbn [snd] in Hkeep.
    destruct (code =? OD_SUCCESSFUL)%Z eqn:Hc; cbn [negb].
    + destruct (negb (Z.land (bAccessType e) TO_BE_SAVE =? 0)%Z);
        intros [= <- _ <-]; cbn [ram]; rewrite ?Hst; split; congruence.
    + intros [= _ _ Hc' _]. rewrite Hc', Z.eqb_refl in Hc. done.
  - rewrite Z.eqb_refl. cbn [negb].
    destruct (negb (Z.land (bAccessType e) TO_BE_SAVE =? 0)%Z);
      intros [= <- _ <-]; cbn [ram]; rewrite ?Hst; split; congruence.
Qed.

(** What a read of an entry that is not a string delivers: the storage
    window, reversed when the type is an endianized one on a big-endian
    build. *)
Lemma getODentry_delivers d wIndex bSubindex pDestData cap pDataType m :
  let sr := scanIndexOD d wIndex in
  let e := pSubindex (sr_table sr) !!! bSubindex in
  sr_errorCode sr = OD_SUCCESSFUL ->
  bSubindex < bSubCount (sr_table sr) ->
  bDataType e <> visible_string ->
  size e < 256 ->
  size e <= cap -> cap <= length pDestData ->
  length (storage e (ram m)) = size e ->
  exists dest m',
    getODentry d wIndex bSubindex pDestData cap pDataType false m =
      Some ((dest, size e, bDataType e, OD_SUCCESSFUL), m') /\
    take (size e) dest =
      (if CANOPEN_BIG_ENDIAN && endianized_type (bDataType e)
       then reverse (storage e (ram m)) else storage e (ram m)).
Proof.
  intros sr e Hcode Hsub Hstr Hsz Hcap Hdest Hlen. unfold getODentry.
  rewrite (_findODentry_found _ _ _ Hcode Hsub), Z.eqb_refl. simpl.
  fold sr. fold e. unfold bind, _copyODentry.
  destruct (Nat.ltb_spec cap (size e)); [lia|].
  rewrite andb_true_r.
  destruct (CANOPEN_BIG_ENDIAN && endianized_type (bDataType e)).
  - unfold bind. rewrite reverse_copy_spec. unfold ret.
    do 2 eexists. split; [reflexivity|].
    rewrite Nat.mod_small by lia.
    apply list_eq. intros i.
    rewrite lookup_take, reversed_into_lookup by lia.
    destruct (decide (i < size e)) as [Hi|Hi].
    + rewrite reverse_lookup, Hlen by lia.
      case_decide; [|lia].
      rewrite (list_lookup_lookup_total_lt (storage e (ram m))) by lia.
      rewrite <- storage_lookup_total by lia.
      f_equal. f_equal. lia.
    + symmetry. apply lookup_ge_None. rewrite length_reverse. lia.
  - destruct (Z.eqb_spec (bDataType e) visible_string) as [|_]; [done|].
    cbn [negb]. unfold bind. rewrite memcpy_from_od_spec. unfold ret.
    do 2 eexists. split; [reflexivity|].
    apply list_eq. intros i.
    rewrite lookup_take, copied_into_lookup by lia.
    destruct (decide (i < size e)) as [Hi|Hi].
    + case_decide; [|lia].
      rewrite (list_lookup_lookup_total_lt (storage e (ram m))) by lia.
      rewrite <- storage_lookup_total by lia. done.
    + symmetry. apply lookup_ge_None. lia.
Qed.

(** C6.  Round trip of an endianized scalar.  For an entry whose type is
    byte-reversed (above [boolean], outside [visible_string .. domain]) and
    whose size fits a scalar, a write of the declared size with
    [endianize] that returns [OD_SUCCESSFUL], followed by [getODentry]
    (which always endianizes) with room for the declared size, delivers
    the bytes the source buffer held before the write. *)
Theorem endianize_round_trip fuel d wIndex bSubindex pSourceData pDestData
    cap pDataType checkAccess m src' n m1 :
  let sr := scanIndexOD d wIndex in
  let e := pSubindex (sr_table sr) !!! bSubindex in
  OD_SUCCESSFUL = 0%Z ->
  OD_WRITE_NOT_ALLOWED <> OD_SUCCESSFUL ->
  sr_errorCode sr = OD_SUCCESSFUL ->
  bSubindex < bSubCount (sr_table sr) ->
  endianized_type (bDataType e) = true ->
  bDataType e <> visible_string ->
  size e < 256 -> size e / 2 < fuel ->
  size e <= length pSourceData ->
  pObject e + size e <= length (ram m) ->
  size e <= cap -> cap <= length pDestData ->
  (forall fn t s r, storage e (run_callback d fn t s r).2 = storage e r) ->
  (forall i s r, storage e (storeODSubIndex d i s r) = storage e r) ->
  _setODentry fuel d wIndex bSubindex pSourceData (size e) checkAccess
    true m = Some ((src', n, OD_SUCCESSFUL), m1) ->
  exists dest m2,
    getODentry d wIndex bSubindex pDestData cap pDataType false m1 =
      Some ((dest, size e, bDataType e, OD_SUCCESSFUL), m2) /\
    take (size e) dest = take (size e) pSourceData.
Proof.
  intros sr e H0 Hwna Hcode Hsub Hty Hstr Hsz Hfuel Hsrc Hwin Hcap Hdest
    Hcb Hst Hwrite.
  destruct (_setODentry_stored fuel d wIndex bSubindex pSourceData
              checkAccess true m src' n m1 H0 Hwna Hcode Hsub
              ltac:(fold sr; fold e; lia) Hfuel Hsrc Hwin Hcb Hst Hwrite)
    as [Hsrc' Hstored].
  fold sr in Hsrc', Hstored. fold e in Hsrc', Hstored.
  rewrite Hty, andb_true_r in Hsrc'.
  assert (Hlen : length (storage e (ram m1)) = size e).
  { rewrite Hstored, length_take. subst src'.
    destruct CANOPEN_BIG_ENDIAN; cbn [andb];
      rewrite ?length_app, ?length_reverse, ?length_take, ?length_drop; lia. }
  destruct (getODentry_delivers d wIndex bSubindex pDestData cap pDataType m1
              Hcode Hsub Hstr Hsz Hcap Hdest Hlen) as (dest & m2 & Hread & Hd).
  fold sr in Hd. fold e in Hd.
  exists dest, m2. split; [exact Hread|].
  rewrite Hd, Hty, andb_true_r, Hstored. subst src'.
  destruct CANOPEN_BIG_ENDIAN; cbn [andb]; [|done].
  rewrite take_app_length'
    by (rewrite length_reverse, length_take; lia).
  apply reverse_involutive.
Qed.

(** The access check of [getODentry] as it is written: with
    [checkAccess], an entry without the [WO] flag is refused and an entry
    with it is read like without the check. *)
Lemma getODentry_checkAccess d wIndex bSubindex pDestData cap pDataType m :
  let sr := scanIndexOD d wIndex in
  let e := pSubindex (sr_table sr) !!! bSubindex in
  sr_errorCode sr = OD_SUCCESSFUL ->
  bSubindex < bSubCount (sr_table sr) ->
  (Z.land (bAccessType e) WO = 0%Z ->
   getODentry d wIndex bSubindex pDestData cap pDataType true m =
   Some ((pDestData, cap, pDataType, OD_READ_NOT_ALLOWED), m)) /\
  (Z.land (bAccessType e) WO <> 0%Z ->
   getODentry d wIndex bSubindex pDestData cap pDataType true m =
   getODentry d wIndex bSubindex pDestData cap pDataType false m).
Proof.
  intros sr e Hcode Hsub. unfold getODentry.
  rewrite (_findODentry_found _ _ _ Hcode Hsub), Z.eqb_refl. simpl.
  fold sr. fold e. unfold _checkODentryAccess.
  split; intros Hwo.
  - rewrite Hwo. reflexivity.
  - apply Z.eqb_neq in Hwo. rewrite Hwo. reflexivity.
Qed.

(** The access check of [_setODentry] as it is written: with
    [checkAccess], an entry whose access type is exactly [RO] is refused
    and nothing is touched; any other access type is written like without
    the check. *)
Lemma _setODentry_checkAccess fuel d wIndex bSubindex pSourceData given
    endianize m :
  let sr := scanIndexOD d wIndex in
  let e := pSubindex (sr_table sr) !!! bSubindex in
  sr_errorCode sr = OD_SUCCESSFUL ->
  bSubindex < bSubCount (sr_table sr) ->
  (bAccessType e = RO ->
   _setODentry fuel d wIndex bSubindex pSourceData given true endianize m =
   Some ((pSourceData, given, OD_WRITE_NOT_ALLOWED), m)) /\
  (bAccessType e <> RO ->
   _setODentry fuel d wIndex bSubindex pSourceData given true endianize m =
   _setODentry fuel d wIndex bSubindex pSourceData given false endianize m).
Proof.
  intros sr e Hcode Hsub. unfold _setODentry. fold sr.
  rewrite Hcode, Z.eqb_refl. simpl.
  destruct (Nat.leb_spec (bSubCount (sr_table sr)) bSubindex); [lia|].
  fold e. split; intros Hro.
  - rewrite Hro, Z.eqb_refl. reflexivity.
  - apply Z.eqb_neq in Hro. rewrite Hro. reflexivity.
Qed.

(** A write with the given size 0 as it is written: for an entry that is
    not a string, without callback and without the [TO_BE_SAVE] flag, it
    succeeds, reports the declared size and stores nothing. *)
Lemma _setODentry_given_zero fuel d wIndex bSubindex pSourceData checkAccess
    endianize m :
  let sr := scanIndexOD d wIndex in
  let e := pSubindex (sr_table sr) !!! bSubindex in
  let src' := native_source e endianize pSourceData in
  sr_errorCode sr = OD_SUCCESSFUL ->
  bSubindex < bSubCount (sr_table sr) ->
  checkAccess && (bAccessType e =? RO)%Z = false ->
  reversal_ends fuel e endianize ->
  valueRangeTest d (bDataType e) src' = 0%Z ->
  bDataType e <> visible_string ->
  sr_Callback sr = None ->
  Z.land (bAccessType e) TO_BE_SAVE = 0%Z ->
  _setODentry fuel d wIndex bSubindex pSourceData 0 checkAccess endianize m =
  Some ((src', size e, OD_SUCCESSFUL),
        {| ram := ram m; callbacks := callbacks m;
           trace := trace m ++ [EvRangeTest (bDataType e) src'] |}).
Proof.
  intros sr e src' Hcode Hsub Hacc Hends Hval Hstr Hcb Hsave.
  unfold _setODentry. fold sr. rewrite Hcode, Z.eqb_refl. simpl.
  destruct (Nat.leb_spec (bSubCount (sr_table sr)) bSubindex); [lia|].
  fold e. rewrite Hacc, Hcb.
  unfold bind at 1.
  rewrite (native_source_spec fuel e endianize pSourceData m Hends).
  fold src'.
  unfold bind at 1. unfold record_event at 1. rewrite Hval, Hsave.
  apply Z.eqb_neq in Hstr. rewrite Hstr.
  unfold_monad. simpl. rewrite Z.eqb_refl. reflexivity.
Qed.

(** The scan of a string reads the byte at [ptr] first. *)
Lemma string_scan_first_load ptr room k dest m :
  exists r t,
    string_scan ptr room k dest m =
    Some (r, {| ram := ram m; callbacks := callbacks m;
                trace := trace m ++ EvLoad ptr :: t |}).
Proof.
  destruct room as [|room]; simpl; unfold bind, load, ret.
  - destruct (ram m !!! ptr =? 0)%Z; exists (ptr, dest), []; reflexivity.
  - destruct (ram m !!! ptr =? 0)%Z; [exists (ptr, dest), []; reflexivity|].
    simpl.
    edestruct (string_scan_returns (S ptr) room (S k)
      (<[k:=ram m !!! ptr]> dest)
      {| ram := ram m; callbacks := callbacks m;
         trace := (trace m ++ [EvLoad ptr]) ++ [EvLoad ptr] |})
      as (ptr' & dest' & t & ->).
    simpl. rewrite <- !app_assoc. simpl. eauto.
Qed.

(** Past [j] bytes that are not zero, with room for them, the scan reads
    the byte after them. *)
Lemma string_scan_reads_on j ptr room k dest m :
  j <= room ->
  (forall i, i < j -> ram m !!! (ptr + i) <> 0%Z) ->
  exists r t,
    string_scan ptr room k dest m =
    Some (r, {| ram := ram m; callbacks := callbacks m;
                trace := trace m ++ t |}) /\
    In (EvLoad (ptr + j)) t.
Proof.
  revert ptr room k dest m.
  induction j as [|j IH]; intros ptr room k dest m Hroom Hnz.
  - destruct (string_scan_first_load ptr room k dest m) as (r & t & ->).
    exists r, (EvLoad ptr :: t). rewrite Nat.add_0_r. split; [done|].
    left. reflexivity.
  - destruct room as [|room]; [lia|].
    simpl. unfold bind, load, ret.
    pose proof (Hnz 0 ltac:(lia)) as H0. rewrite Nat.add_0_r in H0.
    apply Z.eqb_neq in H0. rewrite H0. simpl.
    edestruct (IH (S ptr) room (S k) (<[k:=ram m !!! ptr]> dest)
      {| ram := ram m; callbacks := callbacks m;
         trace := (trace m ++ [EvLoad ptr]) ++ [EvLoad ptr] |})
      as (r & t & -> & Hin); [lia| |].
    { intros i Hi. cbn [ram].
      replace (S ptr + i) with (ptr + S i) by lia. apply Hnz. lia. }
    simpl. exists r, (EvLoad ptr :: EvLoad ptr :: t).
    rewrite <- !app_assoc. simpl. split; [done|].
    right. right. replace (ptr + S j) with (S ptr + j) by lia. done.
Qed.

(** The read of a string whose window holds no zero byte reads the byte
    behind the window. *)
Lemma _copyODentry_reads_behind_window e bSubindex pDestData cap endianize m :
  CANOPEN_BIG_ENDIAN && endianize && endianized_type visible_string = false ->
  size e <= cap ->
  (forall i, i < size e -> ram m !!! (pObject e + i) <> 0%Z) ->
  exists r m',
    _copyODentry e bSubindex pDestData visible_string cap endianize m =
      Some (r, m') /\
    In (EvLoad (pObject e + size e)) (trace m') /\
    ~ in_window e (pObject e + size e).
Proof.
  intros Hnoswap Hcap Hnz. unfold _copyODentry.
  destruct (Nat.ltb_spec cap (size e)); [lia|].
  rewrite Hnoswap, Z.eqb_refl. cbn [negb].
  set (room := if negb (cap =? 0) then cap else size e).
  assert (Hroom : size e <= room).
  { unfold room. destruct (cap =? 0); simpl; lia. }
  destruct (string_scan_reads_on (size e) (pObject e) room 0 pDestData m
              Hroom Hnz) as ([ptr dest] & t & Hscan & Hin).
  unfold bind at 1. rewrite Hscan.
  destruct (ptr - pObject e <? size e); unfold_monad; do 2 eexists;
    (split; [reflexivity|]); cbn [trace];
    (split; [rewrite ?in_app_iff; auto | unfold in_window; lia]).
Qed.

End Properties.

(** ** The engine on concrete devices *)

Section Examples.
#[local] Existing Instance little_endian_defs.
Local Open Scope Z_scope.

(** C1.  Reads with [checkAccess].  The test of [getODentry] on the result
    of [_checkODentryAccess] is the wrong way round: the read of the
    write-only entry goes through and delivers the stored byte 42, and the
    read of the read-write entry is refused with [OD_READ_NOT_ALLOWED]. *)
Theorem getODentry_checkAccess_inverted :
  getODentry (example_device [wo_entry] None) 0x2000 0 [0] 1 0 true
    (example_machine [42] []) =
  Some (([42], 1%nat, uint8, OD_SUCCESSFUL),
        {| ram := [42]; callbacks := []; trace := [EvLoad 0] |}) /\
  getODentry (example_device [rw_entry] None) 0x2000 0 [0] 1 0 true
    (example_machine [42] []) =
  Some (([0], 1%nat, 0, OD_READ_NOT_ALLOWED), example_machine [42] []).
Proof. split; reflexivity. Qed.

(** C2.  Writes with [checkAccess].  The entry whose access type is [RO]
    alone is refused with [OD_WRITE_NOT_ALLOWED] and keeps its byte 42; the
    entry whose access type is [RO | TO_BE_SAVE] is written: the write
    returns [OD_SUCCESSFUL], the storage holds 7 and the persistence
    notifier was called. *)
Theorem _setODentry_RO_with_TO_BE_SAVE_written :
  _setODentry 1 (example_device [ro_entry] None) 0x2000 0 [7] 1 true false
    (example_machine [42] []) =
  Some (([7], 1%nat, OD_WRITE_NOT_ALLOWED), example_machine [42] []) /\
  _setODentry 1 (example_device [ro_saved_entry] None) 0x2000 0 [7] 1 true
    false (example_machine [42] []) =
  Some (([7], 1%nat, OD_SUCCESSFUL),
        {| ram := [7]; callbacks := [];
           trace := [EvRangeTest uint8 [7]; EvStore 0;
                     EvStoreODSubIndex 0x2000 0] |}).
Proof. split; reflexivity. Qed.

(** C3.  Read of the string "AB" from a window of 4 bytes into a buffer of
    4 bytes filled with 0xFF.  Two bytes are copied and 2 is reported, but
    the byte of the destination at index 2 is still 0xFF: the terminating
    zero is stored through [ptr], at address 2 of the RAM, not through
    [ptr_dest]. *)
Theorem getODentry_string_not_terminated :
  getODentry (example_device [string_entry 4] None) 0x2000 0
    [0xFF; 0xFF; 0xFF; 0xFF] 4 0 false (example_machine [65; 66; 0; 0] []) =
  Some (([65; 66; 0xFF; 0xFF], 2%nat, visible_string, OD_SUCCESSFUL),
        {| ram := [65; 66; 0; 0]; callbacks := [];
           trace := [EvLoad 0; EvLoad 0; EvLoad 1; EvLoad 1; EvLoad 2;
                     EvStore 2] |}).
Proof. reflexivity. Qed.

(** C4.  Read of a string whose window of 2 bytes holds "AB" and no zero;
    the RAM goes on with the bytes 67 and 0 of another object.  With a
    capacity of 4 the scan reads the addresses 2 and 3 outside the window,
    copies the foreign byte 67 to the caller and reports 3 bytes for an
    entry of size 2; with a capacity of exactly 2 it still reads
    address 2. *)
Theorem getODentry_string_scan_leaves_window :
  getODentry (example_device [string_entry 2] None) 0x2000 0
    [0xFF; 0xFF; 0xFF; 0xFF] 4 0 false (example_machine [65; 66; 67; 0] []) =
  Some (([65; 66; 67; 0xFF], 3%nat, visible_string, OD_SUCCESSFUL),
        {| ram := [65; 66; 67; 0]; callbacks := [];
           trace := [EvLoad 0; EvLoad 0; EvLoad 1; EvLoad 1; EvLoad 2;
                     EvLoad 2; EvLoad 3] |}) /\
  getODentry (example_device [string_entry 2] None) 0x2000 0
    [0xFF; 0xFF] 2 0 false (example_machine [65; 66; 67; 0] []) =
  Some (([65; 66], 2%nat, visible_string, OD_SUCCESSFUL),
        {| ram := [65; 66; 67; 0]; callbacks := [];
           trace := [EvLoad 0; EvLoad 0; EvLoad 1; EvLoad 1; EvLoad 2] |}) /\
  ~ in_window (string_entry 2) 2 /\ ~ in_window (string_entry 2) 3.
Proof.
  repeat split; try reflexivity; unfold in_window; simpl; lia.
Qed.

(** C5.  Write of the two bytes E8 03 to an [UNS16] entry with a given
    size of 0.  The write returns [OD_SUCCESSFUL] and reports the declared
    size 2, but [memcpy] was called with the given size: no byte is stored
    and the entry still holds 11 22. *)
Theorem _setODentry_size_zero_copies_nothing :
  _setODentry 1 (example_device [u16_entry] None) 0x2000 0 [0xE8; 0x03] 0
    true false (example_machine [0x11; 0x22] []) =
  Some (([0xE8; 0x03], 2%nat, OD_SUCCESSFUL),
        {| ram := [0x11; 0x22]; callbacks := [];
           trace := [EvRangeTest uint16 [0xE8; 0x03]] |}) /\
  storage u16_entry [0x11; 0x22] <> take 2 [0xE8; 0x03].
Proof. split; [reflexivity|discriminate]. Qed.


(** Registration for subindex 5 of an index with one subindex and a
    callback array of one slot. *)
Lemma RegisterSetODentryCallBack_beyond_count_witness :
  exists code,
    RegisterSetODentryCallBack (example_device [u16_entry] (Some 0%nat))
      0x2000 5 0x100 (example_machine [0; 0] [[0]]) =
    Some (code, example_machine [0; 0] [[0]]) /\
    code = OD_SUCCESSFUL /\ code <> OD_NO_SUCH_SUBINDEX.
Proof.
  apply (RegisterSetODentryCallBack_beyond_count
           (example_device [u16_entry] (Some 0%nat)) 0x2000 5 0x100 0
           (example_machine [0; 0] [[0]]));
    [discriminate | reflexivity | reflexivity | simpl; lia].
Defined.

(** The size rule on the [UNS16] entry: the given size 2 reaches the
    validator, the given size 1 is refused. *)
Lemma _setODentry_size_rule_witness :
  (exists n code m' t,
     _setODentry 2 (example_device [u16_entry] None) 0x2000 0 [0xE8; 0x03] 2
       true false (example_machine [0; 0] []) =
     Some (([0xE8; 0x03], n, code), m') /\
     trace m' = [] ++ EvRangeTest uint16 [0xE8; 0x03] :: t) /\
  _setODentry 2 (example_device [u16_entry] None) 0x2000 0 [0xE8; 0x03] 1
    true false (example_machine [0; 0] []) =
  Some (([0xE8; 0x03], 2%nat, OD_LENGTH_DATA_INVALID),
        example_machine [0; 0] []).
Proof.
  split.
  - refine (proj1 (_setODentry_size_rule 2 (example_device [u16_entry] None)
                     0x2000 0 [0xE8; 0x03] 2 true false
                     (example_machine [0; 0] []) _ _ _) _ _);
      [reflexivity | simpl; lia | reflexivity
      | right; left; reflexivity | left; reflexivity].
  - refine (proj2 (_setODentry_size_rule 2 (example_device [u16_entry] None)
                     0x2000 0 [0xE8; 0x03] 1 true false
                     (example_machine [0; 0] []) _ _ _) _);
      [reflexivity | simpl; lia | reflexivity |].
    simpl. intros [H|[H|[H _]]]; discriminate.
Defined.

(** A write to the saved [UNS16] entry whose callback, the function at
    0x100, fails with 0x08000000. *)
Lemma _setODentry_callback_witness :
  exists ram1 m',
    let code :=
      (run_callback (example_device [u16_saved_entry] (Some 0%nat)) 0x100
         (sr_table (scanIndexOD
                      (example_device [u16_saved_entry] (Some 0%nat)) 0x2000))
         0 ram1).1 in
    let ram2 :=
      (run_callback (example_device [u16_saved_entry] (Some 0%nat)) 0x100
         (sr_table (scanIndexOD
                      (example_device [u16_saved_entry] (Some 0%nat)) 0x2000))
         0 ram1).2 in
    let notified :=
      (code =? OD_SUCCESSFUL) &&
      negb (Z.land (bAccessType u16_saved_entry) TO_BE_SAVE =? 0) in
    _setODentry 2 (example_device [u16_saved_entry] (Some 0%nat)) 0x2000 0
      [0xE8; 0x03] 2 true false (example_machine [0; 0] [[0x100]]) =
      Some (([0xE8; 0x03], 2%nat, code), m') /\
    trace m' =
      [] ++ [EvRangeTest uint16 [0xE8; 0x03]] ++
      map EvStore (seq 0 2 ++ []) ++
      [EvCallback 0x100 0] ++
      (if notified then [EvStoreODSubIndex 0x2000 0] else []) /\
    callback_calls (trace m') = (0 + 1)%nat /\
    (forall k, (k < 2)%nat ->
       ram1 !! (0 + k)%nat = Some ([0xE8; 0x03] !!! k)) /\
    ram m' =
      (if notified
       then storeODSubIndex (example_device [u16_saved_entry] (Some 0%nat))
              0x2000 0 ram2
       else ram2).
Proof.
  refine (_setODentry_callback 2
            (example_device [u16_saved_entry] (Some 0%nat)) 0x2000 0
            [0xE8; 0x03] 2 true false (example_machine [0; 0] [[0x100]]) 0
            _ _ _ _ _ _ _ _ _);
    [reflexivity | simpl; lia | reflexivity | reflexivity | left; reflexivity
    | reflexivity | reflexivity | discriminate | simpl; lia].
Defined.

(** Round trip of the value 1000 through the [UNS16] entry on a big-endian
    target: the wire bytes E8 03 are stored as 03 E8 and read back as
    E8 03. *)
Lemma endianize_round_trip_witness :
  exists dest m2,
    getODentry (Defs := big_endian_defs) (example_device [u16_entry] None)
      0x2000 0 [0; 0] 2 0 false
      {| ram := [0x03; 0xE8]; callbacks := [];
         trace := [EvRangeTest uint16 [0x03; 0xE8]; EvStore 0; EvStore 1] |} =
      Some ((dest, 2%nat, uint16, 0), m2) /\
    take 2 dest = take 2 [0xE8; 0x03].
Proof.
  apply (endianize_round_trip (Defs := big_endian_defs) 2
           (example_device [u16_entry] None) 0x2000 0 [0xE8; 0x03] [0; 0] 2
           0 true (example_machine [0; 0] []) [0x03; 0xE8] 2
           {| ram := [0x03; 0xE8]; callbacks := [];
              trace := [EvRangeTest uint16 [0x03; 0xE8]; EvStore 0;
                        EvStore 1] |});
    [reflexivity | discriminate | reflexivity | simpl; lia | reflexivity
    | discriminate | simpl; lia | simpl; lia | simpl; lia | simpl; lia
    | simpl; lia | simpl; lia | intros; reflexivity | intros; reflexivity
    | reflexivity].
Defined.

End Examples.

(** ** More on the loops *)

Section Scan.
Implicit Types r dest : list Z.


Lemma scan_len_nonzero r ptr room i :
  i < scan_len r ptr room -> r !!! (ptr + i) <> 0%Z.
Proof.
  revert ptr i. induction room as [|room IH]; intros ptr i; simpl; [lia|].
  destruct (Z.eqb_spec (r !!! ptr) 0) as [|Hnz]; [lia|].
  destruct i as [|i]; intros Hi.
  - by rewrite Nat.add_0_r.
  - replace (ptr + S i) with (S ptr + i) by lia. apply IH. lia.
Qed.

Lemma scan_len_stop r ptr room :
  scan_len r ptr room = room \/ r !!! (ptr + scan_len r ptr room) = 0%Z.
Proof.
  revert ptr. induction room as [|room IH]; intros ptr; simpl; [by left|].
  destruct (Z.eqb_spec (r !!! ptr) 0) as [Hz|Hnz].
  - right. by rewrite Nat.add_0_r.
  - destruct (IH (S ptr)) as [->|Hz]; [by left|right].
    by replace (ptr + S (scan_len r (S ptr) room))
      with (S ptr + scan_len r (S ptr) room) by lia.
Qed.

Lemma scan_len_exact r ptr room n :
  n <= room ->
  (forall i, i < n -> r !!! (ptr + i) <> 0%Z) ->
  (n < room -> r !!! (ptr + n) = 0%Z) ->
  scan_len r ptr room = n.
Proof.
  revert ptr n. induction room as [|room IH]; intros ptr n Hn Hnz Hz; simpl.
  - lia.
  - destruct n as [|n].
    + rewrite Nat.add_0_r in Hz. rewrite Hz by lia. reflexivity.
    + pose proof (Hnz 0 ltac:(lia)) as H0. rewrite Nat.add_0_r in H0.
      apply Z.eqb_neq in H0. rewrite H0. f_equal. apply IH; [lia| |].
      * intros i Hi. replace (S ptr + i) with (ptr + S i) by lia.
        apply Hnz. lia.
      * intros Hlt. replace (S ptr + n) with (ptr + S n) by lia.
        apply Hz. lia.
Qed.

(** The scan of a string in full: where it stops, what it has copied and
    which addresses it has read. *)
Lemma string_scan_spec pObj room k dest m :
  let n := scan_len (ram m) (pObj + k) room in
  exists t,
    string_scan (pObj + k) room k dest m =
    Some ((pObj + k + n, copied_into (ram m) pObj n k dest),
          {| ram := ram m; callbacks := callbacks m;
             trace := trace m ++ t |}) /\
    Forall (access_within (pObj + k) (pObj + k + n)) t.
Proof.
  revert k dest m. induction room as [|room IH]; intros k dest m n.
  - subst n. simpl. unfold bind, load, ret. rewrite Nat.add_0_r.
    exists [EvLoad (pObj + k)].
    split; [by destruct (ram m !!! (pObj + k)%nat =? 0)%Z|].
    repeat constructor; simpl; lia.
  - subst n. simpl. unfold bind, load, ret.
    destruct (ram m !!! (pObj + k)%nat =? 0)%Z.
    + rewrite Nat.add_0_r. exists [EvLoad (pObj + k)].
      split; [done|]. repeat constructor; simpl; lia.
    + cbn [ram callbacks trace].
      replace (S (pObj + k)) with (pObj + S k) by lia.
      destruct (IH (S k) (<[k:=ram m !!! (pObj + k)]> dest)
        {| ram := ram m; callbacks := callbacks m;
           trace := (trace m ++ [EvLoad (pObj + k)]) ++ [EvLoad (pObj + k)] |})
        as (t & -> & Ht).
      cbn [ram callbacks trace] in *.
      exists (EvLoad (pObj + k) :: EvLoad (pObj + k) :: t).
      split.
      * rewrite <- !app_assoc. cbn [app]. do 3 f_equal. lia.
      * repeat constructor; simpl; try lia.
        eapply Forall_impl; [exact Ht|].
        intros [a|a| | |]; simpl; lia.
Qed.

Lemma reversed_into_lookup_ge r pObj i j dest idx :
  j + i <= idx -> reversed_into r pObj i j dest !! idx = dest !! idx.
Proof.
  revert j dest. induction i as [|i IH]; intros j dest Hidx; simpl; [done|].
  rewrite IH by lia. apply list_lookup_insert_ne. lia.
Qed.


(** A zero stored over a zero. *)
Lemma insert_zero_id r a : r !!! a = 0%Z -> <[a := 0%Z]> r = r.
Proof.
  intros Hz. destruct (decide (a < length r)) as [Hlt|Hge].
  - apply list_insert_id. rewrite list_lookup_lookup_total_lt by done.
    by rewrite Hz.
  - apply list_insert_ge. lia.
Qed.

End Scan.

(** ** Reads *)

Section Reads.
Context `{Defs : ObjDictDefs}.
Implicit Types (d : CO_Data) (m : machine) (e : subindex).

(** The read of a string in full: the scan has room for [cap] bytes. *)
Lemma _copyODentry_string e bSubindex pDestData cap endianize m :
  CANOPEN_BIG_ENDIAN && endianize && endianized_type visible_string = false ->
  size e <= cap ->
  let n := scan_len (ram m) (pObject e) cap in
  exists t,
    _copyODentry e bSubindex pDestData visible_string cap endianize m =
    Some ((copied_into (ram m) (pObject e) n 0 pDestData, n, OD_SUCCESSFUL),
          {| ram := ram m; callbacks := callbacks m;
             trace := trace m ++ t |}) /\
    Forall (access_within (pObject e) (pObject e + n)) t.
Proof.
  intros Hnorev Hcap n. unfold _copyODentry.
  destruct (Nat.ltb_spec cap (size e)); [lia|].
  rewrite Hnorev, Z.eqb_refl. cbn [negb].
  assert (Hroom : (if negb (cap =? 0) then cap else size e) = cap).
  { destruct (Nat.eqb_spec cap 0); simpl; lia. }
  rewrite Hroom.
  destruct (string_scan_spec (pObject e) cap 0 pDestData m) as (t & Hscan & Ht).
  rewrite Nat.add_0_r in Hscan, Ht. fold n in Hscan, Ht.
  unfold bind at 1. rewrite Hscan.
  replace (pObject e + n - pObject e) with n by lia.
  destruct (Nat.ltb_spec n (size e)) as [Hlt|Hge].
  - unfold_monad. cbn [ram callbacks trace].
    rewrite insert_zero_id.
    2:{ destruct (scan_len_stop (ram m) (pObject e) cap) as [Hfull|Hz];
          [fold n in Hfull; lia|exact Hz]. }
    exists (t ++ [EvStore (pObject e + n)]). rewrite app_assoc.
    split; [done|]. apply Forall_app. split; [done|].
    repeat constructor; simpl; lia.
  - unfold_monad. exists t. done.
Qed.



(** X1.  A read of an index the resolver does not know, or of a subindex
    at or beyond the subindex count, returns the code of the resolver,
    respectively [OD_NO_SUCH_SUBINDEX]; the destination, [*pExpectedSize],
    [*pDataType] and the machine are as before. *)
Theorem getODentry_not_found d wIndex bSubindex pDestData cap pDataType
    checkAccess m :
  let sr := scanIndexOD d wIndex in
  OD_NO_SUCH_SUBINDEX <> OD_SUCCESSFUL ->
  sr_errorCode sr <> OD_SUCCESSFUL \/ bSubCount (sr_table sr) <= bSubindex ->
  getODentry d wIndex bSubindex pDestData cap pDataType checkAccess m =
  Some ((pDestData, cap, pDataType,
         if (sr_errorCode sr =? OD_SUCCESSFUL)%Z
         then OD_NO_SUCH_SUBINDEX else sr_errorCode sr), m).
Proof.
  intros sr Hne Hnot. unfold getODentry, _findODentry. fold sr.
  destruct (Z.eqb_spec (sr_errorCode sr) OD_SUCCESSFUL) as [Hok|Hbad];
    cbn [negb].
  - destruct Hnot as [|Hsub]; [done|].
    destruct (Nat.leb_spec (bSubCount (sr_table sr)) bSubindex); [|lia].
    apply Z.eqb_neq in Hne. rewrite Hne. reflexivity.
  - apply Z.eqb_neq in Hbad. rewrite Hbad. reflexivity.
Qed.




(** X5.  A read with byte reversal counts the bytes in an [UNS8]: it
    delivers the first [size mod 256] bytes of the window in reverse
    order, so the whole window when the size is below 256, and leaves the
    destination beyond them as it was, while it reports the declared
    size. *)
Theorem _copyODentry_reversed e bSubindex pDestData dataType cap endianize m :
  CANOPEN_BIG_ENDIAN && endianize && endianized_type dataType = true ->
  size e <= cap -> cap <= length pDestData ->
  pObject e + size e <= length (ram m) ->
  let k := size e mod 256 in
  exists dest m',
    _copyODentry e bSubindex pDestData dataType cap endianize m =
    Some ((dest, size e, OD_SUCCESSFUL), m') /\
    take k dest = reverse (take k (storage e (ram m))) /\
    drop k dest = drop k pDestData.
Proof.
  intros Hrev Hcap Hdest Hwin k. unfold _copyODentry.
  destruct (Nat.ltb_spec cap (size e)); [lia|].
  rewrite Hrev. unfold bind. rewrite reverse_copy_spec. unfold ret.
  fold k. assert (Hk : k <= size e) by apply Nat.Div0.mod_le.
  do 2 eexists. split; [reflexivity|]. split.
  - apply list_eq. intros i.
    rewrite lookup_take, reversed_into_lookup by lia.
    assert (Hlen : length (take k (storage e (ram m))) = k).
    { unfold storage. rewrite !length_take, length_drop. lia. }
    destruct (decide (i < k)) as [Hi|Hi].
    + rewrite reverse_lookup, Hlen by lia.
      case_decide; [|lia].
      rewrite lookup_take_lt by lia. unfold storage.
      rewrite lookup_take_lt, lookup_drop by lia.
      rewrite list_lookup_lookup_total_lt by lia.
      f_equal. f_equal. lia.
    + symmetry. apply lookup_ge_None. rewrite length_reverse. lia.
  - apply list_eq. intros i. rewrite !lookup_drop.
    apply reversed_into_lookup_ge. lia.
Qed.

(** X6.  The read of a string whose first zero byte is at offset [n],
    within the capacity: it reports [n], delivers the [n] bytes before
    the zero, leaves the RAM as it was and accesses no address outside
    [[pObject, pObject + n]]. *)
Theorem _copyODentry_string_exact e bSubindex pDestData cap endianize m n :
  CANOPEN_BIG_ENDIAN && endianize && endianized_type visible_string = false ->
  size e <= cap -> cap <= length pDestData ->
  n <= cap -> pObject e + n <= length (ram m) ->
  (forall i, i < n -> ram m !!! (pObject e + i) <> 0%Z) ->
  ram m !!! (pObject e + n) = 0%Z ->
  exists dest t,
    _copyODentry e bSubindex pDestData visible_string cap endianize m =
    Some ((dest, n, OD_SUCCESSFUL),
          {| ram := ram m; callbacks := callbacks m;
             trace := trace m ++ t |}) /\
    take n dest = take n (drop (pObject e) (ram m)) /\
    Forall (access_within (pObject e) (pObject e + n)) t.
Proof.
  intros Hnorev Hcap Hdest Hn Hram Hnz Hz.
  destruct (_copyODentry_string e bSubindex pDestData cap endianize m
              Hnorev Hcap) as (t & Hcopy & Ht).
  rewrite (scan_len_exact (ram m) (pObject e) cap n Hn Hnz (fun _ => Hz))
    in Hcopy, Ht.
  do 2 eexists. split; [exact Hcopy|]. split; [|exact Ht].
  apply list_eq. intros i.
  rewrite !lookup_take, lookup_drop, copied_into_lookup by lia.
  repeat case_decide; try done; try lia.
  by rewrite list_lookup_lookup_total_lt by lia.
Qed.

End Reads.

(** ** Writes *)

Section Writes.
Context `{Defs : ObjDictDefs}.
Implicit Types (d : CO_Data) (m : machine) (e : subindex).

(** Strings are not byte-reversed when the type codes are in order. *)
Lemma endianized_type_string :
  (visible_string <= domain)%Z -> endianized_type visible_string = false.
Proof.
  intros Hle. unfold endianized_type.
  rewrite Z.leb_refl. apply Z.leb_le in Hle. rewrite Hle.
  apply andb_false_r.
Qed.

Lemma native_source_id e endianize src :
  CANOPEN_BIG_ENDIAN && endianize && endianized_type (bDataType e) = false ->
  native_source e endianize src = src.
Proof. intros H. unfold native_source. by rewrite H. Qed.

(** A write that got past the checks and the validator, in full. *)
Lemma _setODentry_accepted fuel d wIndex bSubindex pSourceData given
    checkAccess endianize m :
  let sr := scanIndexOD d wIndex in
  let e := pSubindex (sr_table sr) !!! bSubindex in
  let src' := native_source e endianize pSourceData in
  let short := (bDataType e =? visible_string)%Z && (given <? size e) in
  let stored := write_bytes (ram m) (pObject e) src' given 0 in
  let ram1 := if short then <[pObject e + given := 0%Z]> stored else stored in
  let fn := match sr_Callback sr with
            | Some h => (callbacks m !!! h) !!! bSubindex
            | None => 0%Z
            end in
  let called := negb (fn =? 0)%Z in
  let code := if called
              then (run_callback d fn (sr_table sr) bSubindex ram1).1
              else OD_SUCCESSFUL in
  let ram2 := if called
              then (run_callback d fn (sr_table sr) bSubindex ram1).2
              else ram1 in
  let notified :=
    (code =? OD_SUCCESSFUL)%Z &&
    negb (Z.land (bAccessType e) TO_BE_SAVE =? 0)%Z in
  sr_errorCode sr = OD_SUCCESSFUL ->
  bSubindex < bSubCount (sr_table sr) ->
  checkAccess && (bAccessType e =? RO)%Z = false ->
  size_accepted (bDataType e) (size e) given = true ->
  reversal_ends fuel e endianize ->
  valueRangeTest d (bDataType e) src' = 0%Z ->
  _setODentry fuel d wIndex bSubindex pSourceData given checkAccess
    endianize m =
  Some ((src', size e, code),
        {| ram := if notified
                  then storeODSubIndex d wIndex bSubindex ram2 else ram2;
           callbacks := callbacks m;
           trace :=
             trace m ++ [EvRangeTest (bDataType e) src'] ++
             map EvStore
               (seq (pObject e) given ++
                (if short then [pObject e + given] else [])) ++
             (if called then [EvCallback fn bSubindex] else []) ++
             (if notified then [EvStoreODSubIndex wIndex bSubindex]
              else []) |}).
Proof.
  intros sr e src' short stored ram1 fn called code ram2 notified
    Hcode Hsub Hacc Hok Hends Hval.
  unfold _setODentry. fold sr. rewrite Hcode, Z.eqb_refl. simpl.
  destruct (Nat.leb_spec (bSubCount (sr_table sr)) bSubindex); [lia|].
  fold e. rewrite Hacc, Hok.
  unfold bind at 1.
  rewrite (native_source_spec fuel e endianize pSourceData m Hends).
  fold src'.
  unfold bind at 1. unfold record_event at 1.
  rewrite Hval. simpl.
  unfold bind at 1. rewrite memcpy_to_od_spec. fold stored.
  rewrite Nat.add_0_r.
  subst notified code ram2 called ram1 fn.
  fold short.
  unfold_monad.
  destruct short; cbn [ram callbacks trace];
    set (fn := match sr_Callback sr with
               | Some h => (callbacks m !!! h) !!! bSubindex
               | None => 0%Z
               end);
    (destruct (fn =? 0)%Z; cbn [negb ram callbacks trace];
     [ rewrite Z.eqb_refl; cbn [negb andb];
       destruct (negb (Z.land (bAccessType e) TO_BE_SAVE =? 0)%Z);
       cbn [ram callbacks trace]; rewrite ?map_app, <- ?app_assoc;
       cbn [map app]; rewrite ?app_nil_r; reflexivity
     | destruct (run_callback d fn (sr_table sr) bSubindex _)
         as [c r2]; cbn [fst snd];
       destruct (c =? OD_SUCCESSFUL)%Z eqn:Hc; cbn [negb andb];
       [ apply Z.eqb_eq in Hc; subst c;
         destruct (negb (Z.land (bAccessType e) TO_BE_SAVE =? 0)%Z)
       | ];
       cbn [ram callbacks trace]; rewrite ?map_app, <- ?app_assoc;
       cbn [map app]; rewrite ?app_nil_r; reflexivity ]).
Qed.

(** A write that is stopped before the size test. *)
Lemma _setODentry_stopped fuel d wIndex bSubindex pSourceData given
    checkAccess endianize m :
  let sr := scanIndexOD d wIndex in
  let e := pSubindex (sr_table sr) !!! bSubindex in
  sr_errorCode sr <> OD_SUCCESSFUL \/
  bSubCount (sr_table sr) <= bSubindex \/
  checkAccess && (bAccessType e =? RO)%Z = true ->
  _setODentry fuel d wIndex bSubindex pSourceData given checkAccess
    endianize m =
  Some ((pSourceData, given,
         if negb (sr_errorCode sr =? OD_SUCCESSFUL)%Z then sr_errorCode sr
         else if bSubCount (sr_table sr) <=? bSubindex
              then OD_NO_SUCH_SUBINDEX else OD_WRITE_NOT_ALLOWED), m).
Proof.
  intros sr e Hstop. unfold _setODentry. fold sr.
  destruct (Z.eqb_spec (sr_errorCode sr) OD_SUCCESSFUL) as [Hok|Hbad];
    cbn [negb]; [|reflexivity].
  destruct (Nat.leb_spec (bSubCount (sr_table sr)) bSubindex) as [Hsub|Hsub];
    [reflexivity|].
  fold e. destruct Hstop as [|[|Hro]]; [done|lia|].
  rewrite Hro. reflexivity.
Qed.

(** A write of a size that is accepted, with a value the validator
    refuses. *)
Lemma _setODentry_vetoed fuel d wIndex bSubindex pSourceData given
    checkAccess endianize m :
  let sr := scanIndexOD d wIndex in
  let e := pSubindex (sr_table sr) !!! bSubindex in
  let src' := native_source e endianize pSourceData in
  sr_errorCode sr = OD_SUCCESSFUL ->
  bSubindex < bSubCount (sr_table sr) ->
  checkAccess && (bAccessType e =? RO)%Z = false ->
  size_accepted (bDataType e) (size e) given = true ->
  reversal_ends fuel e endianize ->
  valueRangeTest d (bDataType e) src' <> 0%Z ->
  _setODentry fuel d wIndex bSubindex pSourceData given checkAccess
    endianize m =
  Some ((src', given, valueRangeTest d (bDataType e) src'),
        {| ram := ram m; callbacks := callbacks m;
           trace := trace m ++ [EvRangeTest (bDataType e) src'] |}).
Proof.
  intros sr e src' Hcode Hsub Hacc Hok Hends Hval.
  unfold _setODentry. fold sr. rewrite Hcode, Z.eqb_refl. simpl.
  destruct (Nat.leb_spec (bSubCount (sr_table sr)) bSubindex); [lia|].
  fold e. rewrite Hacc, Hok.
  unfold bind at 1.
  rewrite (native_source_spec fuel e endianize pSourceData m Hends).
  fold src'. apply Z.eqb_neq in Hval.
  unfold bind, record_event, ret. rewrite Hval. reflexivity.
Qed.

Lemma Forall_stores_in_window e (l : list nat) :
  Forall (in_window e) l -> Forall (stores_in_window e) (map EvStore l).
Proof. induction 1; simpl; constructor; auto. Qed.

(** Every write whose reversal step ends returns; it hands back the source
    buffer as it was or as the reversal left it, and its accesses to the
    RAM are stores inside the window of the entry. *)
Lemma _setODentry_outcome fuel d wIndex bSubindex pSourceData given
    checkAccess endianize m :
  let sr := scanIndexOD d wIndex in
  let e := pSubindex (sr_table sr) !!! bSubindex in
  reversal_ends fuel e endianize ->
  exists src' n code m' t,
    _setODentry fuel d wIndex bSubindex pSourceData given checkAccess
      endianize m = Some ((src', n, code), m') /\
    (src' = pSourceData \/ src' = native_source e endianize pSourceData) /\
    callbacks m' = callbacks m /\
    trace m' = trace m ++ t /\
    Forall (stores_in_window e) t.
Proof.
  intros sr e Hends.
  assert (Hnil : trace m = trace m ++ []) by (by rewrite app_nil_r).
  destruct (Z.eqb_spec (sr_errorCode sr) OD_SUCCESSFUL) as [Hcode|Hcode].
  2:{ rewrite _setODentry_stopped by (left; exact Hcode).
      do 5 eexists. repeat split; eauto. }
  destruct (Nat.leb_spec (bSubCount (sr_table sr)) bSubindex) as [Hsub|Hsub].
  { rewrite _setODentry_stopped by (right; left; exact Hsub).
    do 5 eexists. repeat split; eauto. }
  destruct (checkAccess && (bAccessType e =? RO)%Z) eqn:Hacc.
  { rewrite _setODentry_stopped by (right; right; exact Hacc).
    do 5 eexists. repeat split; eauto. }
  destruct (size_accepted (bDataType e) (size e) given) eqn:Hok.
  2:{ unfold _setODentry. fold sr. rewrite Hcode, Z.eqb_refl. simpl.
      destruct (Nat.leb_spec (bSubCount (sr_table sr)) bSubindex); [lia|].
      fold e. rewrite Hacc, Hok. unfold ret.
      do 5 eexists. repeat split; eauto. }
  destruct (Z.eqb_spec (valueRangeTest d (bDataType e)
                          (native_source e endianize pSourceData)) 0)
    as [Hval|Hval].
  2:{ rewrite (_setODentry_vetoed fuel d wIndex bSubindex pSourceData given
                 checkAccess endianize m Hcode Hsub Hacc Hok Hends Hval).
      do 5 eexists. split; [reflexivity|]. fold sr. fold e.
      repeat split; auto. repeat constructor. }
  rewrite (_setODentry_accepted fuel d wIndex bSubindex pSourceData given
             checkAccess endianize m Hcode Hsub Hacc Hok Hends Hval).
  fold sr. fold e.
  do 5 eexists. split; [reflexivity|]. split; [by right|].
  split; [reflexivity|]. split; [reflexivity|].
  assert (Hgiven : given <= size e).
  { apply size_accepted_iff in Hok. lia. }
  apply Forall_app. split; [repeat constructor|].
  apply Forall_app. split.
  { apply Forall_stores_in_window, Forall_app. split.
    - apply Forall_forall. intros a Ha. apply elem_of_seq in Ha.
      unfold in_window. lia.
    - destruct ((bDataType e =? visible_string)%Z && (given <? size e))
        eqn:Hshort; [|constructor].
      apply andb_true_iff in Hshort as [_ Hlt]. apply Nat.ltb_lt in Hlt.
      repeat constructor; unfold in_window; lia. }
  apply Forall_app. split.
  - destruct (negb _); repeat constructor.
  - destruct (_ && negb _); repeat constructor.
Qed.

(** X7.  A write to an index the resolver does not know, to a subindex at
    or beyond the subindex count, or with [checkAccess] to an entry whose
    access type is [RO] returns the code of the resolver,
    [OD_NO_SUCH_SUBINDEX], respectively [OD_WRITE_NOT_ALLOWED]; the source
    buffer, [*pExpectedSize] and the machine are as before, and no
    validator, callback or notifier is called. *)
Theorem _setODentry_refused fuel d wIndex bSubindex pSourceData given
    checkAccess endianize m :
  let sr := scanIndexOD d wIndex in
  let e := pSubindex (sr_table sr) !!! bSubindex in
  sr_errorCode sr <> OD_SUCCESSFUL \/
  bSubCount (sr_table sr) <= bSubindex \/
  (checkAccess = true /\ bAccessType e = RO) ->
  _setODentry fuel d wIndex bSubindex pSourceData given checkAccess
    endianize m =
  Some ((pSourceData, given,
         if negb (sr_errorCode sr =? OD_SUCCESSFUL)%Z then sr_errorCode sr
         else if bSubCount (sr_table sr) <=? bSubindex
              then OD_NO_SUCH_SUBINDEX else OD_WRITE_NOT_ALLOWED), m).
Proof.
  intros sr e Hstop. apply _setODentry_stopped. fold sr. fold e.
  destruct Hstop as [H|[H|[-> ->]]]; auto.
  right. right. by rewrite Z.eqb_refl.
Qed.

(** X8.  The veto of the validator: when it returns a code other than 0
    for a write of an accepted size, the write returns that code and
    leaves [*pExpectedSize], the RAM and the callbacks as they were; the
    copy, the callback and the notifier do not run.  The source buffer
    stays byte-reversed if the reversal applied. *)
Theorem _setODentry_validator_veto fuel d wIndex bSubindex pSourceData given
    checkAccess endianize m :
  let sr := scanIndexOD d wIndex in
  let e := pSubindex (sr_table sr) !!! bSubindex in
  let src' :=
    if CANOPEN_BIG_ENDIAN && endianize && endianized_type (bDataType e)
    then reverse (take (size e) pSourceData) ++ drop (size e) pSourceData
    else pSourceData in
  sr_errorCode sr = OD_SUCCESSFUL ->
  bSubindex < bSubCount (sr_table sr) ->
  checkAccess && (bAccessType e =? RO)%Z = false ->
  size_accepted (bDataType e) (size e) given = true ->
  reversal_ends fuel e endianize ->
  size e <= length pSourceData ->
  valueRangeTest d (bDataType e) src' <> 0%Z ->
  _setODentry fuel d wIndex bSubindex pSourceData given checkAccess
    endianize m =
  Some ((src', given, valueRangeTest d (bDataType e) src'),
        {| ram := ram m; callbacks := callbacks m;
           trace := trace m ++ [EvRangeTest (bDataType e) src'] |}).
Proof.
  intros sr e src' Hcode Hsub Hacc Hok Hends Hlen Hval.
  subst src'. rewrite <- (native_source_reverse e endianize pSourceData Hlen)
    in *.
  by apply _setODentry_vetoed.
Qed.

(** X9.  The effect of a write that passes the checks and the validator,
    to a subindex without callback whose entry is not to be saved: it
    returns [OD_SUCCESSFUL] and reports the declared size; the RAM holds
    the first [given] bytes of the source from [pObject] on, a zero behind
    them if the entry is a string written short, and every other byte as
    before. *)
Theorem _setODentry_effect fuel d wIndex bSubindex pSourceData given
    checkAccess endianize m :
  let sr := scanIndexOD d wIndex in
  let e := pSubindex (sr_table sr) !!! bSubindex in
  let src' := native_source e endianize pSourceData in
  sr_errorCode sr = OD_SUCCESSFUL ->
  bSubindex < bSubCount (sr_table sr) ->
  checkAccess && (bAccessType e =? RO)%Z = false ->
  size_accepted (bDataType e) (size e) given = true ->
  reversal_ends fuel e endianize ->
  valueRangeTest d (bDataType e) src' = 0%Z ->
  match sr_Callback sr with
  | Some h => (callbacks m !!! h) !!! bSubindex
  | None => 0%Z
  end = 0%Z ->
  Z.land (bAccessType e) TO_BE_SAVE = 0%Z ->
  pObject e + size e <= length (ram m) ->
  exists m',
    _setODentry fuel d wIndex bSubindex pSourceData given checkAccess
      endianize m = Some ((src', size e, OD_SUCCESSFUL), m') /\
    callbacks m' = callbacks m /\
    length (ram m') = length (ram m) /\
    forall a,
      ram m' !! a =
      if decide (pObject e <= a < pObject e + given)
      then Some (src' !!! (a - pObject e))
      else if decide (bDataType e = visible_string /\ given < size e /\
                      a = pObject e + given)
           then Some 0%Z
           else ram m !! a.
Proof.
  intros sr e src' Hcode Hsub Hacc Hok Hends Hval Hfn Hsave Hwin.
  rewrite (_setODentry_accepted fuel d wIndex bSubindex pSourceData given
             checkAccess endianize m Hcode Hsub Hacc Hok Hends Hval).
  fold sr. fold e. fold src'. rewrite Hfn, Hsave. cbn [negb Z.eqb andb].
  rewrite Z.eqb_refl, andb_false_r.
  assert (Hgiven : given <= size e).
  { apply size_accepted_iff in Hok. lia. }
  eexists. split; [reflexivity|]. cbn [ram callbacks].
  split; [reflexivity|]. split.
  - destruct ((bDataType e =? visible_string)%Z && (given <? size e));
      rewrite ?length_insert; apply write_bytes_length.
  - intros a.
    destruct ((bDataType e =? visible_string)%Z && (given <? size e))
      eqn:Hshort.
    + apply andb_true_iff in Hshort as [Hstr Hlt].
      apply Z.eqb_eq in Hstr. apply Nat.ltb_lt in Hlt.
      rewrite list_lookup_insert, write_bytes_length, write_bytes_lookup.
      repeat case_decide; try done; try lia.
    + apply andb_false_iff in Hshort.
      rewrite write_bytes_lookup.
      repeat case_decide; try done; try lia.
      destruct Hshort as [Hstr|Hlt].
      * apply Z.eqb_neq in Hstr. tauto.
      * apply Nat.ltb_ge in Hlt. lia.
Qed.

(** X10.  Every write whose reversal step ends returns, leaves the
    callback arrays as they were, and accesses the RAM only by stores
    inside the storage window of the entry: it reads no byte of the RAM
    and writes none outside [[pObject, pObject + size)]. *)
Theorem _setODentry_stores_in_window fuel d wIndex bSubindex pSourceData
    given checkAccess endianize m :
  let sr := scanIndexOD d wIndex in
  let e := pSubindex (sr_table sr) !!! bSubindex in
  reversal_ends fuel e endianize ->
  exists r m' t,
    _setODentry fuel d wIndex bSubindex pSourceData given checkAccess
      endianize m = Some (r, m') /\
    callbacks m' = callbacks m /\
    trace m' = trace m ++ t /\
    Forall (stores_in_window e) t.
Proof.
  intros sr e Hends.
  destruct (_setODentry_outcome fuel d wIndex bSubindex pSourceData given
              checkAccess endianize m Hends)
    as (src' & n & code & m' & t & -> & _ & Hcb & Ht & Hall).
  eauto 10.
Qed.

(** X11.  [writeLocalDict] always returns, whatever the fuel, and hands
    the source buffer back unchanged. *)
Theorem writeLocalDict_keeps_source fuel d wIndex bSubindex pSourceData given
    checkAccess m :
  exists n code m',
    writeLocalDict fuel d wIndex bSubindex pSourceData given checkAccess m =
    Some ((pSourceData, n, code), m').
Proof.
  unfold writeLocalDict.
  set (e := pSubindex (sr_table (scanIndexOD d wIndex)) !!! bSubindex).
  assert (Hnorev : CANOPEN_BIG_ENDIAN && false &&
                   endianized_type (bDataType e) = false)
    by (by rewrite andb_false_r).
  destruct (_setODentry_outcome fuel d wIndex bSubindex pSourceData given
              checkAccess false m (or_introl Hnorev))
    as (src' & n & code & m' & t & -> & Hsrc & _).
  fold e in Hsrc. rewrite (native_source_id e false pSourceData Hnorev) in Hsrc.
  destruct Hsrc as [->| ->]; eauto.
Qed.

(** X12.  The reversal loop with its [UNS8] counter has no end when half
    the size of the entry exceeds 255: a write with byte reversal to an
    entry of 512 bytes or more that passes the checks and the size test
    does not return, however long it runs. *)
Theorem _setODentry_never_returns fuel d wIndex bSubindex pSourceData given
    checkAccess endianize m :
  let sr := scanIndexOD d wIndex in
  let e := pSubindex (sr_table sr) !!! bSubindex in
  sr_errorCode sr = OD_SUCCESSFUL ->
  bSubindex < bSubCount (sr_table sr) ->
  checkAccess && (bAccessType e =? RO)%Z = false ->
  size_accepted (bDataType e) (size e) given = true ->
  CANOPEN_BIG_ENDIAN && endianize && endianized_type (bDataType e) = true ->
  512 <= size e ->
  _setODentry fuel d wIndex bSubindex pSourceData given checkAccess
    endianize m = None.
Proof.
  intros sr e Hcode Hsub Hacc Hok Hrev Hsz.
  unfold _setODentry. fold sr. rewrite Hcode, Z.eqb_refl. simpl.
  destruct (Nat.leb_spec (bSubCount (sr_table sr)) bSubindex); [lia|].
  fold e. rewrite Hacc, Hok, Hrev.
  unfold bind at 1. rewrite swap_bytes_diverges; [done| |lia].
  pose proof (Nat.div_mod_eq (size e) 2).
  pose proof (Nat.mod_upper_bound (size e) 2). lia.
Qed.

(** X13.  Round trip of a string.  A write of [given] bytes without a
    zero to a string entry of a larger declared size, followed by
    [getODentry] with room for the declared size, reports [given] and
    delivers the bytes written; this holds whatever code the callback of
    the write returned, as long as callback and notifier leave the
    storage of the entry alone. *)
Theorem string_round_trip fuel d wIndex bSubindex pSourceData given
    checkAccess endianize pDestData cap pDataType m :
  let sr := scanIndexOD d wIndex in
  let e := pSubindex (sr_table sr) !!! bSubindex in
  (visible_string <= domain)%Z ->
  sr_errorCode sr = OD_SUCCESSFUL ->
  bSubindex < bSubCount (sr_table sr) ->
  checkAccess && (bAccessType e =? RO)%Z = false ->
  bDataType e = visible_string ->
  given < size e ->
  given <= length pSourceData ->
  (forall i, i < given -> pSourceData !!! i <> 0%Z) ->
  valueRangeTest d visible_string pSourceData = 0%Z ->
  pObject e + size e <= length (ram m) ->
  (forall fn t s r, storage e (run_callback d fn t s r).2 = storage e r) ->
  (forall i s r, storage e (storeODSubIndex d i s r) = storage e r) ->
  size e <= cap -> cap <= length pDestData ->
  exists code m1 dest m2,
    _setODentry fuel d wIndex bSubindex pSourceData given checkAccess
      endianize m = Some ((pSourceData, size e, code), m1) /\
    getODentry d wIndex bSubindex pDestData cap pDataType false m1 =
      Some ((dest, given, visible_string, OD_SUCCESSFUL), m2) /\
    take given dest = take given pSourceData.
Proof.
  intros sr e Hord Hcode Hsub Hacc Hty Hlt Hsrc Hnz Hval Hwin Hcb Hst
    Hcap Hdest.
  assert (Hnorev : forall en,
            CANOPEN_BIG_ENDIAN && en && endianized_type (bDataType e) = false).
  { intros en. rewrite Hty, endianized_type_string by done.
    apply andb_false_r. }
  assert (Hok : size_accepted (bDataType e) (size e) given = true).
  { apply size_accepted_iff. auto. }
  pose proof (native_source_id e endianize pSourceData (Hnorev endianize))
    as Hsame.
  pose proof (_setODentry_accepted fuel d wIndex bSubindex pSourceData given
                checkAccess endianize m Hcode Hsub Hacc Hok
                (or_introl (Hnorev endianize))) as Hwrite.
  cbv zeta in Hwrite. fold sr in Hwrite. fold e in Hwrite.
  rewrite Hsame, Hty, Z.eqb_refl in Hwrite.
  destruct (Nat.ltb_spec given (size e)) as [_|]; [|lia].
  cbn [andb] in Hwrite. specialize (Hwrite Hval).
  set (ram1 := <[pObject e + given := 0%Z]>
                 (write_bytes (ram m) (pObject e) pSourceData given 0))
    in Hwrite.
  assert (Hlen1 : length ram1 = length (ram m)).
  { unfold ram1. by rewrite length_insert, write_bytes_length. }
  assert (Hbytes : forall i, i < given ->
            ram1 !!! (pObject e + i) = pSourceData !!! i).
  { intros i Hi. apply list_lookup_total_correct. unfold ram1.
    rewrite list_lookup_insert_ne, write_bytes_lookup by lia.
    case_decide; [|lia]. f_equal. f_equal. lia. }
  assert (Hzero : ram1 !!! (pObject e + given) = 0%Z).
  { unfold ram1. apply list_lookup_total_insert_eq.
    rewrite write_bytes_length. lia. }
  match type of Hwrite with
  | _ = Some ((_, _, ?c), ?mm) => set (code := c) in *; set (m1 := mm) in *
  end.
  assert (Hkeep : storage e (ram m1) = storage e ram1).
  { unfold m1. cbn [ram].
    match goal with
    | |- context [if ?c then storeODSubIndex _ _ _ _ else _] => destruct c
    end; rewrite ?Hst;
      match goal with
      | |- context [if ?c then (run_callback _ _ _ _ _).2 else _] =>
          destruct c
      end; rewrite ?Hcb; reflexivity. }
  assert (Hread : forall i, i < size e ->
            ram m1 !!! (pObject e + i) = ram1 !!! (pObject e + i)).
  { intros i Hi. by rewrite !storage_lookup_total, Hkeep by done. }
  exists code, m1.
  pose proof (Hnorev true) as Hnorev'. rewrite Hty in Hnorev'.
  destruct (_copyODentry_string e bSubindex pDestData cap true m1
              Hnorev' Hcap) as (t & Hcopy & _).
  rewrite (scan_len_exact (ram m1) (pObject e) cap given) in Hcopy.
  2:{ lia. }
  2:{ intros i Hi. rewrite Hread, Hbytes by lia. auto. }
  2:{ intros _. rewrite Hread, Hzero by lia. done. }
  do 2 eexists. split; [exact Hwrite|]. split.
  - unfold getODentry.
    rewrite (_findODentry_found _ _ _ Hcode Hsub), Z.eqb_refl. simpl.
    fold sr. fold e. unfold bind. rewrite Hty, Hcopy. reflexivity.
  - apply list_eq. intros i.
    rewrite !lookup_take, copied_into_lookup by lia.
    repeat case_decide; try done; try lia.
    rewrite Hread, Hbytes by lia.
    by rewrite list_lookup_lookup_total_lt by lia.
Qed.

End Writes.

(** ** The reversal loop of the write *)

Section Reversal.

(** X14.  The in-place reversal of the source buffer undoes itself: run on
    its own result it gives the buffer back, and it keeps the length. *)
Theorem swap_bytes_involutive fuel sz (src : list Z) m :
  sz <= length src -> sz / 2 <= 255 -> sz / 2 < fuel ->
  exists src',
    swap_bytes fuel sz 0 src m = Some (src', m) /\
    length src' = length src /\
    swap_bytes fuel sz 0 src' m = Some (src, m).
Proof.
  intros Hlen Hsz Hfuel.
  exists (swapped (sz / 2) sz 0 src).
  rewrite !swap_bytes_spec, !Nat.sub_0_r by lia.
  split; [reflexivity|]. split; [apply swapped_length|].
  f_equal. f_equal.
  rewrite (swapped_reverse sz src Hlen).
  assert (Hrev : length (reverse (take sz src)) = sz).
  { rewrite length_reverse, length_take. lia. }
  rewrite swapped_reverse by (rewrite length_app, length_drop; lia).
  rewrite take_app_length', drop_app_length' by done.
  rewrite reverse_involutive. apply take_drop.
Qed.

End Reversal.

(** ** The callback registry *)

Section Registry.
Context `{Defs : ObjDictDefs}.
Implicit Types (d : CO_Data) (m : machine).

(** The registration that takes place. *)
Lemma RegisterSetODentryCallBack_done d wIndex bSubindex Callback
    CallbackList m :
  let sr := scanIndexOD d wIndex in
  sr_errorCode sr = OD_SUCCESSFUL ->
  sr_Callback sr = Some CallbackList ->
  bSubindex < bSubCount (sr_table sr) ->
  RegisterSetODentryCallBack d wIndex bSubindex Callback m =
  Some (OD_SUCCESSFUL,
        {| ram := ram m;
           callbacks :=
             <[CallbackList :=
                 <[bSubindex := Callback]> (callbacks m !!! CallbackList)]>
               (callbacks m);
           trace := trace m |}).
Proof.
  intros sr Hcode Hcb Hsub. unfold RegisterSetODentryCallBack. fold sr.
  rewrite Hcb, Hcode, Z.eqb_refl.
  destruct (Nat.ltb_spec bSubindex (bSubCount (sr_table sr))); [|lia].
  reflexivity.
Qed.

(** X15.  Registering a callback for a subindex below the subindex count
    of a present index with a callback array returns [OD_SUCCESSFUL],
    puts the function into the slot of that subindex and leaves every
    other slot, the RAM and the trace as they were. *)
Theorem RegisterSetODentryCallBack_registers d wIndex bSubindex Callback
    CallbackList m :
  let sr := scanIndexOD d wIndex in
  sr_errorCode sr = OD_SUCCESSFUL ->
  sr_Callback sr = Some CallbackList ->
  bSubindex < bSubCount (sr_table sr) ->
  CallbackList < length (callbacks m) ->
  bSubindex < length (callbacks m !!! CallbackList) ->
  exists m',
    RegisterSetODentryCallBack d wIndex bSubindex Callback m =
      Some (OD_SUCCESSFUL, m') /\
    ram m' = ram m /\ trace m' = trace m /\
    (callbacks m' !!! CallbackList) !!! bSubindex = Callback /\
    forall h s, (h, s) <> (CallbackList, bSubindex) ->
      (callbacks m' !!! h) !!! s = (callbacks m !!! h) !!! s.
Proof.
  intros sr Hcode Hcb Hsub Hh Hs.
  rewrite (RegisterSetODentryCallBack_done d wIndex bSubindex Callback
             CallbackList m Hcode Hcb Hsub).
  eexists. split; [reflexivity|]. cbn [ram callbacks trace].
  split; [reflexivity|]. split; [reflexivity|]. split.
  - rewrite list_lookup_total_insert_eq by done.
    by apply list_lookup_total_insert_eq.
  - intros h s Hne.
    destruct (decide (h = CallbackList)) as [->|Hh'].
    + rewrite list_lookup_total_insert_eq by done.
      apply list_lookup_total_insert_ne. congruence.
    + by rewrite list_lookup_total_insert_ne.
Qed.

(** X16.  A second registration for the same subindex overwrites the
    first: registering [fn1] and then [fn2] leaves the machine that
    registering [fn2] alone leaves. *)
Theorem RegisterSetODentryCallBack_overwrites d wIndex bSubindex fn1 fn2 m :
  bind (RegisterSetODentryCallBack d wIndex bSubindex fn1)
       (fun _ => RegisterSetODentryCallBack d wIndex bSubindex fn2) m =
  RegisterSetODentryCallBack d wIndex bSubindex fn2 m.
Proof.
  unfold RegisterSetODentryCallBack.
  destruct (sr_Callback (scanIndexOD d wIndex)) as [h|]; [|reflexivity].
  destruct (_ && _); [|reflexivity].
  unfold_monad. cbn [ram callbacks trace]. do 3 f_equal.
  destruct (decide (h < length (callbacks m))) as [Hh|Hh].
  - rewrite list_lookup_total_insert_eq by done.
    by rewrite !list_insert_insert_eq.
  - by rewrite !(list_insert_ge (callbacks m)) by lia.
Qed.

(** X17.  Registration for an index the resolver does not know, or for an
    index without callback array, returns the code of the resolver and
    leaves the machine as it was. *)
Theorem RegisterSetODentryCallBack_without_effect d wIndex bSubindex
    Callback m :
  let sr := scanIndexOD d wIndex in
  sr_errorCode sr <> OD_SUCCESSFUL \/ sr_Callback sr = None ->
  RegisterSetODentryCallBack d wIndex bSubindex Callback m =
  Some (sr_errorCode sr, m).
Proof.
  intros sr Hno. unfold RegisterSetODentryCallBack. fold sr.
  destruct (sr_Callback sr) as [h|]; [|reflexivity].
  destruct Hno as [Hbad|]; [|done].
  apply Z.eqb_neq in Hbad. rewrite Hbad. reflexivity.
Qed.

(** X18.  Registration and write together.  After a function has been
    registered for a subindex, a write to that subindex that passes the
    checks and the validator calls that function, once; after the
    registration of NULL it calls no callback. *)
Theorem RegisterSetODentryCallBack_then_write fuel d wIndex bSubindex fn
    CallbackList pSourceData given checkAccess endianize m :
  let sr := scanIndexOD d wIndex in
  let e := pSubindex (sr_table sr) !!! bSubindex in
  sr_errorCode sr = OD_SUCCESSFUL ->
  sr_Callback sr = Some CallbackList ->
  bSubindex < bSubCount (sr_table sr) ->
  CallbackList < length (callbacks m) ->
  bSubindex < length (callbacks m !!! CallbackList) ->
  checkAccess && (bAccessType e =? RO)%Z = false ->
  size_accepted (bDataType e) (size e) given = true ->
  reversal_ends fuel e endianize ->
  valueRangeTest d (bDataType e) (native_source e endianize pSourceData) =
    0%Z ->
  exists m1 r m2,
    RegisterSetODentryCallBack d wIndex bSubindex fn m =
      Some (OD_SUCCESSFUL, m1) /\
    _setODentry fuel d wIndex bSubindex pSourceData given checkAccess
      endianize m1 = Some (r, m2) /\
    callback_calls (trace m2) =
      callback_calls (trace m) + (if (fn =? 0)%Z then 0 else 1) /\
    (fn <> 0%Z -> In (EvCallback fn bSubindex) (trace m2)).
Proof.
  intros sr e Hcode Hcb Hsub Hh Hs Hacc Hok Hends Hval.
  rewrite (RegisterSetODentryCallBack_done d wIndex bSubindex fn
             CallbackList m Hcode Hcb Hsub).
  eexists. eexists. eexists. split; [reflexivity|].
  rewrite (_setODentry_accepted fuel d wIndex bSubindex pSourceData given
             checkAccess endianize _ Hcode Hsub Hacc Hok Hends Hval).
  fold sr. fold e. rewrite Hcb. cbn [ram callbacks trace].
  rewrite list_lookup_total_insert_eq by done.
  rewrite list_lookup_total_insert_eq by done.
  split; [reflexivity|]. cbn [trace].
  rewrite !callback_calls_app, callback_calls_stores.
  destruct (fn =? 0)%Z eqn:Hfn; cbn [negb].
  - split; [|intros Hne; apply Z.eqb_neq in Hne; congruence].
    match goal with
    | |- context [if ?c then [EvStoreODSubIndex _ _] else _] => destruct c
    end; simpl; lia.
  - split.
    + match goal with
      | |- context [if ?c then [EvStoreODSubIndex _ _] else _] => destruct c
      end; simpl; lia.
    + intros _. rewrite !in_app_iff. right. right. right. left. by left.
Qed.

End Registry.

(** ** The timer *)

Section Timer.
Local Open Scope Z_scope.

Lemma to_int_mod (a value : Z) :
  (a + to_int value) mod 2 ^ 16 = (a + value) mod 2 ^ 16.
Proof.
  unfold to_int.
  replace (a + ((value + 2 ^ 15) mod 2 ^ 16 - 2 ^ 15))
    with ((a - 2 ^ 15) + (value + 2 ^ 15) mod 2 ^ 16) by lia.
  rewrite Zplus_mod_idemp_r. f_equal. lia.
Qed.

(** X19.  [setTimer] moves the alarm forward by [value] modulo 2^16: the
    cast of [value] to [int] does not change the result.  The alarm stays
    a 16 bit value and no other register changes. *)
Theorem setTimer_wraps (value : Z) (s : timer_state) :
  OCR1B (setTimer value s) = (OCR1B s + value) mod 2 ^ 16 /\
  0 <= OCR1B (setTimer value s) < 2 ^ 16 /\
  TCNT1 (setTimer value s) = TCNT1 s /\
  TCCR1B (setTimer value s) = TCCR1B s /\
  TIMSK1 (setTimer value s) = TIMSK1 s /\
  last_time_set (setTimer value s) = last_time_set s.
Proof.
  unfold setTimer. cbn [OCR1B TCNT1 TCCR1B TIMSK1 last_time_set].
  rewrite to_int_mod. repeat split; try reflexivity;
    apply Z.mod_pos_bound; lia.
Qed.

(** X20.  Two calls of [setTimer] add up: the alarm after [setTimer a] and
    [setTimer b] is the alarm after [setTimer (a + b)]. *)
Theorem setTimer_accumulates (a b : Z) (s : timer_state) :
  setTimer b (setTimer a s) = setTimer (a + b) s.
Proof.
  unfold setTimer. cbn [OCR1B TCNT1 TCCR1B TIMSK1 last_time_set].
  f_equal. rewrite !to_int_mod, Zplus_mod_idemp_l. f_equal. lia.
Qed.

(** X21.  [getElapsedTime], [k] ticks of the 16 bit counter after the
    interrupt routine has latched the counter at [c]: it returns
    [TIMEVAL_MAX] when no tick has passed, [k] as long as the counter has
    not wrapped around, and [2^16 - k] once it has. *)
Theorem getElapsedTime_after_interrupt (TIMEVAL_MAX k : Z) (s : timer_state) :
  0 <= TCNT1 s < 2 ^ 16 ->
  0 <= k < 2 ^ 16 ->
  getElapsedTime TIMEVAL_MAX (ticks k (TIMER1_COMPB_interrupt (fun s' => s') s))
  = if k =? 0 then TIMEVAL_MAX
    else if TCNT1 s + k <? 2 ^ 16 then k else 2 ^ 16 - k.
Proof.
  intros Hc Hk. unfold getElapsedTime, ticks, TIMER1_COMPB_interrupt.
  cbn [OCR1B TCNT1 TCCR1B TIMSK1 last_time_set].
  destruct (Z.ltb_spec (TCNT1 s + k) (2 ^ 16)) as [Hno|Hwrap].
  - rewrite Z.mod_small by lia.
    destruct (Z.eqb_spec k 0) as [->|Hk0].
    + rewrite Z.add_0_r, Z.ltb_irrefl. reflexivity.
    + destruct (Z.ltb_spec (TCNT1 s) (TCNT1 s + k)); lia.
  - replace ((TCNT1 s + k) mod 2 ^ 16) with (TCNT1 s + k - 2 ^ 16).
    2:{ apply Z.mod_unique with 1; lia. }
    destruct (Z.eqb_spec k 0) as [->|Hk0]; [lia|].
    destruct (Z.ltb_spec (TCNT1 s) (TCNT1 s + k - 2 ^ 16)); [lia|].
    destruct (Z.ltb_spec (TCNT1 s + k - 2 ^ 16) (TCNT1 s)); lia.
Qed.

End Timer.

(** ** Reads, writes, registrations and the timer on concrete devices *)

Section MoreExamples.
#[local] Existing Instance little_endian_defs.
Local Open Scope Z_scope.

(** A read of subindex 3 of an index with one subindex. *)
Lemma getODentry_not_found_witness :
  getODentry (example_device [u16_entry] None) 0x2000 3 [0] 1 0 true
    (example_machine [0xE8; 0x03] []) =
  Some (([0], 1%nat, 0, OD_NO_SUCH_SUBINDEX),
        example_machine [0xE8; 0x03] []).
Proof.
  refine (getODentry_not_found (example_device [u16_entry] None) 0x2000 3
            [0] 1 0 true (example_machine [0xE8; 0x03] []) _ _);
    [discriminate | right; simpl; lia].
Defined.


(** A reversing read of the [UNS16] entry on a big-endian target. *)
Lemma _copyODentry_reversed_witness :
  exists dest m',
    _copyODentry (Defs := big_endian_defs) u16_entry 0 [0; 0; 7] uint16 3
      true (example_machine [0x03; 0xE8] []) =
    Some ((dest, 2%nat, 0), m') /\
    take 2 dest = reverse (take 2 (storage u16_entry [0x03; 0xE8])) /\
    drop 2 dest = drop 2 [0; 0; 7].
Proof.
  refine (_copyODentry_reversed (Defs := big_endian_defs) u16_entry 0
            [0; 0; 7] uint16 3 true (example_machine [0x03; 0xE8] [])
            _ _ _ _);
    [reflexivity | simpl; lia | simpl; lia | simpl; lia].
Defined.

(** The read of the string "AB" from a window of 4 bytes. *)
Lemma _copyODentry_string_exact_witness :
  exists dest t,
    _copyODentry (string_entry 4) 0 [9; 9; 9; 9] visible_string 4 true
      (example_machine [65; 66; 0; 0] []) =
    Some ((dest, 2%nat, OD_SUCCESSFUL),
          {| ram := [65; 66; 0; 0]; callbacks := []; trace := [] ++ t |}) /\
    take 2 dest = take 2 (drop 0 [65; 66; 0; 0]) /\
    Forall (access_within 0 (0 + 2)) t.
Proof.
  refine (_copyODentry_string_exact (string_entry 4) 0 [9; 9; 9; 9] 4 true
            (example_machine [65; 66; 0; 0] []) 2 _ _ _ _ _ _ _);
    [reflexivity | simpl; lia | simpl; lia | simpl; lia | simpl; lia
    | | reflexivity].
  intros [|[|i]] Hi; simpl; [discriminate | discriminate | lia].
Defined.

(** A write with [checkAccess] to the read-only entry. *)
Lemma _setODentry_refused_witness :
  _setODentry 1 (example_device [ro_entry] None) 0x2000 0 [7] 1 true false
    (example_machine [42] []) =
  Some (([7], 1%nat, OD_WRITE_NOT_ALLOWED), example_machine [42] []).
Proof.
  refine (_setODentry_refused 1 (example_device [ro_entry] None) 0x2000 0
            [7] 1 true false (example_machine [42] []) _).
  right. right. split; reflexivity.
Defined.

(** The wire bytes 00 C8 written on a big-endian target to a device whose
    validator refuses them: the source buffer comes back as C8 00. *)
Lemma _setODentry_validator_veto_witness :
  _setODentry (Defs := big_endian_defs) 2 (strict_device [u16_entry]) 0x2000
    0 [0; 200] 2 true true (example_machine [1; 2] []) =
  Some (([200; 0], 2%nat, 0x06090031),
        {| ram := [1; 2]; callbacks := [];
           trace := [] ++ [EvRangeTest uint16 [200; 0]] |}).
Proof.
  refine (_setODentry_validator_veto (Defs := big_endian_defs) 2
            (strict_device [u16_entry]) 0x2000 0 [0; 200] 2 true true
            (example_machine [1; 2] []) _ _ _ _ _ _ _);
    [reflexivity | simpl; lia | reflexivity | reflexivity
    | right; simpl; lia | simpl; lia | discriminate].
Defined.

(** The effect of the write of E8 03 to the [UNS16] entry in a RAM of
    three bytes. *)
Lemma _setODentry_effect_witness :
  exists m',
    _setODentry 2 (example_device [u16_entry] None) 0x2000 0 [0xE8; 0x03] 2
      true false (example_machine [1; 2; 9] []) =
    Some (([0xE8; 0x03], 2%nat, OD_SUCCESSFUL), m') /\
    callbacks m' = [] /\
    length (ram m') = 3%nat /\
    forall a,
      ram m' !! a =
      if decide (0 <= a < 0 + 2)%nat
      then Some ([0xE8; 0x03] !!! (a - 0)%nat)
      else if decide (uint16 = visible_string /\ (2 < 2)%nat /\
                      a = (0 + 2)%nat)
           then Some 0
           else [1; 2; 9] !! a.
Proof.
  refine (_setODentry_effect 2 (example_device [u16_entry] None) 0x2000 0
            [0xE8; 0x03] 2 true false (example_machine [1; 2; 9] [])
            _ _ _ _ _ _ _ _ _);
    [reflexivity | simpl; lia | reflexivity | reflexivity
    | left; reflexivity | reflexivity | reflexivity | reflexivity
    | simpl; lia].
Defined.

(** The accesses of a write of a short string. *)
Lemma _setODentry_stores_in_window_witness :
  exists r m' t,
    _setODentry 1 (example_device [string_entry 4] None) 0x2000 0 [65; 66] 2
      true true (example_machine [0; 0; 0; 0] []) = Some (r, m') /\
    callbacks m' = [] /\
    trace m' = [] ++ t /\
    Forall (stores_in_window (string_entry 4)) t.
Proof.
  refine (_setODentry_stores_in_window 1
            (example_device [string_entry 4] None) 0x2000 0 [65; 66] 2 true
            true (example_machine [0; 0; 0; 0] []) _).
  left. reflexivity.
Defined.

(** A reversing write to the entry of 512 bytes on a big-endian target. *)
Lemma _setODentry_never_returns_witness :
  _setODentry (Defs := big_endian_defs) 1000
    (example_device [wide_entry] None) 0x2000 0 [] 0 true true
    (example_machine [] []) = None.
Proof.
  refine (_setODentry_never_returns (Defs := big_endian_defs) 1000
            (example_device [wide_entry] None) 0x2000 0 [] 0 true true
            (example_machine [] []) _ _ _ _ _ _);
    [reflexivity | simpl; lia | reflexivity | reflexivity | reflexivity
    | simpl; lia].
Defined.

(** The string "AB" written to a window of 4 bytes and read back. *)
Lemma string_round_trip_witness :
  exists code m1 dest m2,
    _setODentry 1 (example_device [string_entry 4] None) 0x2000 0 [65; 66] 2
      true true (example_machine [9; 9; 9; 9] []) =
      Some (([65; 66], 4%nat, code), m1) /\
    getODentry (example_device [string_entry 4] None) 0x2000 0 [7; 7; 7; 7]
      4 0 false m1 =
      Some ((dest, 2%nat, visible_string, OD_SUCCESSFUL), m2) /\
    take 2 dest = take 2 [65; 66].
Proof.
  refine (string_round_trip 1 (example_device [string_entry 4] None) 0x2000
            0 [65; 66] 2 true true [7; 7; 7; 7] 4 0
            (example_machine [9; 9; 9; 9] []) _ _ _ _ _ _ _ _ _ _ _ _ _ _);
    [discriminate | reflexivity | simpl; lia | reflexivity | reflexivity
    | simpl; lia | simpl; lia | | reflexivity | simpl; lia
    | intros; reflexivity | intros; reflexivity | simpl; lia | simpl; lia].
  intros [|[|i]] Hi; simpl; [discriminate | discriminate | lia].
Defined.

(** The reversal of four bytes, twice. *)
Lemma swap_bytes_involutive_witness :
  exists src',
    swap_bytes 3 4 0 [1; 2; 3; 4] (example_machine [] []) =
      Some (src', example_machine [] []) /\
    length src' = length [1; 2; 3; 4] /\
    swap_bytes 3 4 0 src' (example_machine [] []) =
      Some ([1; 2; 3; 4], example_machine [] []).
Proof.
  refine (swap_bytes_involutive 3 4 [1; 2; 3; 4] (example_machine [] [])
            _ _ _); simpl; lia.
Defined.

(** Registration of the function at 0x100 for subindex 0. *)
Lemma RegisterSetODentryCallBack_registers_witness :
  exists m',
    RegisterSetODentryCallBack (example_device [u16_entry] (Some 0%nat))
      0x2000 0 0x100 (example_machine [0; 0] [[0]]) =
      Some (OD_SUCCESSFUL, m') /\
    ram m' = [0; 0] /\ trace m' = [] /\
    (callbacks m' !!! 0%nat) !!! 0%nat = 0x100 /\
    forall h s, (h, s) <> (0%nat, 0%nat) ->
      (callbacks m' !!! h) !!! s = ([[0]] !!! h) !!! s.
Proof.
  refine (RegisterSetODentryCallBack_registers
            (example_device [u16_entry] (Some 0%nat)) 0x2000 0 0x100 0
            (example_machine [0; 0] [[0]]) _ _ _ _ _);
    [reflexivity | reflexivity | simpl; lia | simpl; lia | simpl; lia].
Defined.

(** Registration for an index without callback array. *)
Lemma RegisterSetODentryCallBack_without_effect_witness :
  RegisterSetODentryCallBack (example_device [u16_entry] None) 0x2000 0 0x100
    (example_machine [0; 0] []) =
  Some (OD_SUCCESSFUL, example_machine [0; 0] []).
Proof.
  refine (RegisterSetODentryCallBack_without_effect
            (example_device [u16_entry] None) 0x2000 0 0x100
            (example_machine [0; 0] []) _).
  right. reflexivity.
Defined.

(** Registration of the function at 0x200, then a write. *)
Lemma RegisterSetODentryCallBack_then_write_witness :
  exists m1 r m2,
    RegisterSetODentryCallBack (example_device [u16_entry] (Some 0%nat))
      0x2000 0 0x200 (example_machine [0; 0] [[0]]) =
      Some (OD_SUCCESSFUL, m1) /\
    _setODentry 2 (example_device [u16_entry] (Some 0%nat)) 0x2000 0
      [0xE8; 0x03] 2 true false m1 = Some (r, m2) /\
    callback_calls (trace m2) = (0 + 1)%nat /\
    (0x200 <> 0 -> In (EvCallback 0x200 0) (trace m2)).
Proof.
  refine (RegisterSetODentryCallBack_then_write 2
            (example_device [u16_entry] (Some 0%nat)) 0x2000 0 0x200 0
            [0xE8; 0x03] 2 true false (example_machine [0; 0] [[0]])
            _ _ _ _ _ _ _ _ _);
    [reflexivity | reflexivity | simpl; lia | simpl; lia | simpl; lia
    | reflexivity | reflexivity | left; reflexivity | reflexivity].
Defined.

(** Ten ticks after the counter was latched at 65530: it has wrapped. *)
Lemma getElapsedTime_after_interrupt_witness :
  getElapsedTime 0xFFFF
    (ticks 10
       (TIMER1_COMPB_interrupt (fun s' => s')
          {| OCR1B := 0; TCNT1 := 65530; TCCR1B := 3; TIMSK1 := 4;
             last_time_set := 0xFFFF |})) =
  2 ^ 16 - 10.
Proof.
  refine (getElapsedTime_after_interrupt 0xFFFF 10
            {| OCR1B := 0; TCNT1 := 65530; TCCR1B := 3; TIMSK1 := 4;
               last_time_set := 0xFFFF |} _ _); simpl; lia.
Defined.

End MoreExamples.
